(** * pyprobml, book1/supplements/opt_jax.ipynb

    A shallow embedding of the notebook's minibatch stream
    ([make_batch_stream]), of its two training loops ([sgd] and [sgd_jax])
    and of the logistic-regression objective ([BCE_with_logits], [NLL],
    [NLL_grad]), with the properties of the specification stated over it.

    Conventions.
    - Python integers are [Z]; containers are lists.
    - A Python exception is a value of [exn]; a computation that may raise
      returns [result A = exn + A].
    - Array entries of the objective are real numbers ([R]): the arithmetic
      of the objective is the exact one, rounding is outside the model.
    - The training loops are generic in the parameter, gradient and loss
      types: they only move values around. *)

From Stdlib Require Import String.
From Stdlib Require Import ZArith List Bool Lia.
From Stdlib Require Import Reals Lra.
Import ListNotations.

Set Implicit Arguments.

(** ** Python exceptions and the error monad *)

Module Py.

Inductive exn : Type :=
| ValueError (msg : string)
| InvalidArgumentError (msg : string)
| UnboundLocalError (name : string).

Definition result (A : Type) : Type := (exn + A)%type.

Definition ret {A} (a : A) : result A := inr a.
Definition raise {A} (e : exn) : result A := inl e.

Definition bind {A B} (c : result A) (k : A -> result B) : result B :=
  match c with
  | inl e => inl e
  | inr a => k a
  end.

(** Reading a local variable: [None] is a name that was never bound. *)
Definition read_local {A} (name : string) (v : option A) : result A :=
  match v with
  | Some a => ret a
  | None => raise (UnboundLocalError name)
  end.

(** [for x in xs: st = body st x], where the body may raise. *)
Fixpoint for_each {A St} (xs : list A) (body : St -> A -> result St) (st : St)
  : result St :=
  match xs with
  | [] => ret st
  | x :: xs' => bind (body st x) (for_each xs' body)
  end.

(** [range(n)]: empty when [n <= 0]. *)
Definition range (n : Z) : list Z := map Z.of_nat (seq 0 (Z.to_nat n)).

Definition succeeded {A} (c : result A) : option A :=
  match c with
  | inl _ => None
  | inr a => Some a
  end.

End Py.

Import Py.

Declare Scope py_scope.
Notation "x <- c ;; k" := (bind c (fun x => k))
  (at level 61, c at next level, right associativity) : py_scope.
Notation "' p <- c ;; k" := (bind c (fun x => let p := x in k))
  (at level 61, p pattern, c at next level, right associativity) : py_scope.
Local Open Scope py_scope.

(** ** The iteration protocol *)

Module Iteration.

Section Protocol.

Variable A : Type.

(** The objects a [for] statement ranges over here. [iter(o)] on a dataset
    wrapped by [tfds.as_numpy] builds a new iterator, which starts at the
    first element; on an iterator it returns the iterator itself, with
    whatever it has left. *)
Inductive iterable : Type :=
| Dataset (elems : list A)
| Iterator (addr : nat).

(** The iterator objects alive, by address: for each one, the elements it
    has not produced yet. *)
Definition heap : Type := list (list A).

Definition set_cell (h : heap) (addr : nat) (rest : list A) : heap :=
  firstn addr h ++ rest :: skipn (S addr) h.

(** [iter(o)]: the address of the iterator, and the heap with it. *)
Definition iter_ (o : iterable) (h : heap) : nat * heap :=
  match o with
  | Dataset elems => (length h, h ++ [elems])
  | Iterator addr => (addr, h)
  end.

(** [next(it)]: the next element and the iterator advanced past it, or
    [None] for [StopIteration]. *)
Definition next_ (addr : nat) (h : heap) : option A * heap :=
  match nth_error h addr with
  | Some (a :: rest) => (Some a, set_cell h addr rest)
  | _ => (None, h)
  end.

(** The loop of a [for] statement once it holds its iterator: [next] until
    [StopIteration] or until the body raises. [None] is a loop cut short by
    [fuel]. *)
Fixpoint for_loop {St} (fuel : nat) (addr : nat)
  (body : St -> A -> result St) (st : St) (h : heap)
  : option (result St * heap) :=
  match fuel with
  | O => None
  | S fuel' =>
      match next_ addr h with
      | (None, h') => Some (ret st, h')
      | (Some a, h') =>
          match body st a with
          | inl e => Some (inl e, h')
          | inr st' => for_loop fuel' addr body st' h'
          end
      end
  end.

(** [for a in o: st = body st a]. The iterator is finite: one step more than
    it has elements left is fuel enough. *)
Definition for_in {St} (o : iterable) (body : St -> A -> result St) (st : St)
  (h : heap) : option (result St * heap) :=
  let '(addr, h1) := iter_ o h in
  for_loop (S (length (nth addr h1 []))) addr body st h1.

End Protocol.

End Iteration.

(** ** Minibatches: [make_batch_stream] *)

Module Batching.

Section Stream.

Variables Row Lbl : Type.

(** One element of [Dataset.from_tensor_slices({"X": X_train, "y": y_train})]:
    the dict of one feature row and its label. *)
Record example : Type := Example { ex_X : Row; ex_y : Lbl }.

(** One element of the batched dataset: the dict of the stacked rows and the
    stacked labels. *)
Record batch_dict : Type := BatchDict { bd_X : list Row; bd_y : list Lbl }.

(** [tf.data.Dataset.from_tensor_slices]: slices every component along its
    first axis; the components must agree on its size. *)
Definition from_tensor_slices (X_train : list Row) (y_train : list Lbl)
  : result (list example) :=
  if Nat.eqb (length X_train) (length y_train)
  then ret (map (fun p => Example (fst p) (snd p)) (combine X_train y_train))
  else raise (ValueError "Dimensions are not compatible").

(** The iterator of [tf.data]'s batch dataset: each step pulls up to
    [batch_size] elements of the input; it ends when none is left, or, with
    [drop_remainder], when fewer than [batch_size] are left. The input is
    finite, [fuel] bounds the number of steps. *)
Fixpoint batch_iter (fuel : nat) (batch_size : nat) (drop_remainder : bool)
  (input : list example) : list (list example) :=
  match fuel with
  | O => []
  | S fuel' =>
      let batch_elements := firstn batch_size input in
      match batch_elements with
      | [] => []
      | _ :: _ =>
          if drop_remainder && Nat.ltb (length batch_elements) batch_size
          then []
          else batch_elements
                 :: batch_iter fuel' batch_size drop_remainder
                      (skipn batch_size input)
      end
  end.

Definition stack (elems : list example) : batch_dict :=
  BatchDict (map ex_X elems) (map ex_y elems).

(** [Dataset.batch(batch_size, drop_remainder=False)], as TensorFlow
    documents it: consecutive elements are combined into batches, the last
    batch is smaller when [batch_size] does not divide the number of
    elements and [drop_remainder] is [False], and a batch size that is not
    positive is rejected. *)
Definition batch (input : list example) (batch_size : Z)
  (drop_remainder : bool) : result (list batch_dict) :=
  if (batch_size <=? 0)%Z
  then raise (InvalidArgumentError "Batch size must be greater than zero.")
  else ret (map stack
              (batch_iter (S (length input)) (Z.to_nat batch_size)
                 drop_remainder input)).

(** The value returned by [tfds.as_numpy(batches)]: an iterable over the
    batched dataset. Every [for] over it builds a new iterator, which starts
    at the first batch; the value itself is never changed by a traversal. *)
Definition batch_stream : Type := list batch_dict.

(** The line printed at construction:
    ['{} examples split into {} batches of size {}'] filled with
    [(N, nbatches, batch_size)]. *)
Record split_message : Type :=
  SplitMessage { msg_N : Z; msg_nbatches : Z; msg_batch_size : Z }.

(** [make_batch_stream(X_train, y_train, batch_size)]. [Dataset.batch] is
    called with one argument, so [drop_remainder] has its default, [False].
    [nbatches = int(np.floor(N/batch_size))] is only printed. *)
Definition make_batch_stream (X_train : list Row) (y_train : list Lbl)
  (batch_size : Z) : result (batch_stream * split_message) :=
  dataset <- from_tensor_slices X_train y_train ;;
  batches <- batch dataset batch_size false ;;
  let stream : batch_stream := batches in
  let N := Z.of_nat (length X_train) in
  let nbatches := (N / batch_size)%Z in
  ret (stream, SplitMessage N nbatches batch_size).


(** The cell's demonstration loop over an object [o],
    [for epoch in range(n): for batch in o: print(x.shape)], from a heap of
    iterators, recording for every epoch the batches it went through. *)
Fixpoint epochs_over (epochs : list Z) (o : Iteration.iterable batch_dict)
  (log : list (list batch_dict)) (h : Iteration.heap batch_dict)
  : option (result (list (list batch_dict)) * Iteration.heap batch_dict) :=
  match epochs with
  | [] => Some (ret log, h)
  | _ :: epochs' =>
      match Iteration.for_in o (fun seen b => ret (seen ++ [b])) [] h with
      | None => None
      | Some (inl e, h') => Some (inl e, h')
      | Some (inr seen, h') => epochs_over epochs' o (log ++ [seen]) h'
      end
  end.

Definition epochs_seen (n : Z) (o : Iteration.iterable batch_dict)
  (h : Iteration.heap batch_dict)
  : option (result (list (list batch_dict)) * Iteration.heap batch_dict) :=
  epochs_over (range n) o [] h.

End Stream.

End Batching.

(** ** The training loops: [sgd] and [sgd_jax] *)

Module Training.

(** The one-element tuple of [return params,]. *)
Inductive tuple1 (A : Type) : Type := Tuple1 (item : A).

Definition item {A} (t : tuple1 A) : A := match t with Tuple1 a => a end.

(** A progress line, ['Epoch {}, batch loss {}'.format(epoch, loss)]. *)
Definition progress (V : Type) : Type := (Z * V)%type.

(** The progress lines of [k] epochs, one for every epoch that
    [print_every] divides, when epoch [e] reports [value e]. *)
Definition progress_lines {V} (print_every : Z) (value : nat -> V) (k : nat)
  : list (progress V) :=
  map (fun e => (Z.of_nat e, value e))
    (filter (fun e => (Z.of_nat e mod print_every =? 0)%Z) (seq 0 k)).

(** The parameter vector that a run of [sgd_jax], or of [sgd], returns, if
    the run returns. *)
Definition final_params_of_sgd_jax {P F : Type}
  (r : result ((P * list F) * list (progress F))) : option P :=
  option_map (fun v => fst (fst v)) (succeeded r).

Definition final_params_of_sgd {P L : Type}
  (r : result (tuple1 P * list (progress L))) : option P :=
  option_map (fun v => item (fst v)) (succeeded r).

Section Loops.

(** [Row], [Lbl]: rows and labels of a batch. [Params]: parameter vectors,
    which is also the type of gradients. [Scalar]: learning rates. [Loss]:
    values of the loss function. [Float]: Python floats. *)
Variables Row Lbl Params Scalar Loss Float : Type.

Definition Batch : Type := (list Row * list Lbl)%type.

(** The tuple [(batch_dict["X"], batch_dict["y"])]. *)
Definition as_tuple (batch_dict : Batching.batch_dict Row Lbl) : Batch :=
  (Batching.bd_X batch_dict, Batching.bd_y batch_dict).

(** Array arithmetic used by the loops: [a - b], [lr * g], [0.0], [a + b]. *)
Variable sub : Params -> Params -> Params.
Variable scale : Scalar -> Params -> Params.
Variable zero_loss : Loss.
Variable add_loss : Loss -> Loss -> Loss.

(** [int(0.1 * n)], a floating-point product truncated to an integer. *)
Variable int_tenth : Z -> Z.

(** [jax.grad]: the gradient of a scalar function in its first argument. *)
Variable grad : (Params -> Batch -> Loss) -> Params -> Batch -> Params.

(** [np.float]: conversion of a scalar array to a Python float. *)
Variable np_float : Loss -> Float.

(** *** [sgd], the loop written by hand *)

(** The local variables of [sgd] that outlive an epoch. [batch_loss] is bound
    by the first batch only. *)
Record sgd_locals : Type := SgdLocals {
  sgd_params : Params;
  sgd_batch_loss : option Loss;
  sgd_printed : list (progress Loss)
}.

(** The body of [for batch_dict in batch_iter]; [epoch_loss] is the second
    component of the state. *)
Definition sgd_batch_body (loss_fn : Params -> Batch -> Loss)
  (grad_loss_fn : Params -> Batch -> Params) (lr : Scalar)
  (st : sgd_locals * Loss) (batch_dict : Batching.batch_dict Row Lbl)
  : result (sgd_locals * Loss) :=
  let '(l, epoch_loss) := st in
  let x := Batching.bd_X batch_dict in
  let y := Batching.bd_y batch_dict in
  let batch : Batch := (x, y) in
  let batch_grad := grad_loss_fn (sgd_params l) batch in
  let params := sub (sgd_params l) (scale lr batch_grad) in
  let batch_loss := loss_fn params batch in
  let epoch_loss := add_loss epoch_loss batch_loss in
  ret (SgdLocals params (Some batch_loss) (sgd_printed l), epoch_loss).

(** The body of [for epoch in range(max_epochs)]. *)
Definition sgd_epoch_body (loss_fn : Params -> Batch -> Loss)
  (grad_loss_fn : Params -> Batch -> Params)
  (batch_iter : Batching.batch_stream Row Lbl)
  (lr : Scalar) (print_every : Z) (l : sgd_locals) (epoch : Z)
  : result sgd_locals :=
  let epoch_loss := zero_loss in
  st <- for_each batch_iter (sgd_batch_body loss_fn grad_loss_fn lr)
          (l, epoch_loss) ;;
  let l := fst st in
  if (epoch mod print_every =? 0)%Z
  then
    batch_loss <- read_local "batch_loss" (sgd_batch_loss l) ;;
    ret (SgdLocals (sgd_params l) (sgd_batch_loss l)
           (sgd_printed l ++ [(epoch, batch_loss)]))
  else ret l.

(** [sgd(params, loss_fn, grad_loss_fn, batch_iter, max_epochs, lr)]: the
    returned one-element tuple and the lines printed. *)
Definition sgd (params : Params) (loss_fn : Params -> Batch -> Loss)
  (grad_loss_fn : Params -> Batch -> Params)
  (batch_iter : Batching.batch_stream Row Lbl)
  (max_epochs : Z) (lr : Scalar)
  : result (tuple1 Params * list (progress Loss)) :=
  let print_every := Z.max 1 (int_tenth max_epochs) in
  l <- for_each (range max_epochs)
         (sgd_epoch_body loss_fn grad_loss_fn batch_iter lr print_every)
         (SgdLocals params None []) ;;
  ret (Tuple1 (sgd_params l), sgd_printed l).

(** The parameters after one epoch of [params = params - lr * grad] over the
    batches, in their order. *)
Definition sgd_pass (grad_loss_fn : Params -> Batch -> Params)
  (batches : Batching.batch_stream Row Lbl) (lr : Scalar) (params : Params)
  : Params :=
  fold_left (fun p b => sub p (scale lr (grad_loss_fn p (as_tuple b))))
    batches params.

(** *** [sgd_jax], the loop over an optimizer triple *)

Section Optimizer.

Variable OptState : Type.

(** The local variables of [sgd_jax]. [batch] is bound by the first batch
    only. *)
Record jax_locals : Type := JaxLocals {
  jax_params : Params;
  jax_opt_state : OptState;
  jax_total_steps : Z;
  jax_batch : option Batch;
  jax_loss_history : list Float;
  jax_printed : list (progress Float)
}.

(** The nested function [update(i, opt_state, batch)]. *)
Definition update (loss_fn : Params -> Batch -> Loss)
  (opt_update : Z -> Params -> OptState -> OptState)
  (get_params : OptState -> Params)
  (i : Z) (opt_state : OptState) (batch : Batch) : OptState :=
  let params := get_params opt_state in
  let g := grad loss_fn params batch in
  opt_update i g opt_state.

(** The body of [for batch_dict in batch_stream]. *)
Definition jax_batch_body (loss_fn : Params -> Batch -> Loss)
  (opt_update : Z -> Params -> OptState -> OptState)
  (get_params : OptState -> Params)
  (l : jax_locals) (batch_dict : Batching.batch_dict Row Lbl)
  : result jax_locals :=
  let X := Batching.bd_X batch_dict in
  let y := Batching.bd_y batch_dict in
  let batch : Batch := (X, y) in
  let total_steps := (jax_total_steps l + 1)%Z in
  let opt_state :=
    update loss_fn opt_update get_params total_steps (jax_opt_state l) batch in
  ret (JaxLocals (jax_params l) opt_state total_steps (Some batch)
         (jax_loss_history l) (jax_printed l)).

(** The body of [for epoch in range(max_epochs)]. *)
Definition jax_epoch_body (loss_fn : Params -> Batch -> Loss)
  (batch_stream : Batching.batch_stream Row Lbl)
  (opt_update : Z -> Params -> OptState -> OptState)
  (get_params : OptState -> Params) (print_every : Z)
  (l : jax_locals) (epoch : Z) : result jax_locals :=
  l <- for_each batch_stream (jax_batch_body loss_fn opt_update get_params) l ;;
  let params := get_params (jax_opt_state l) in
  batch <- read_local "batch" (jax_batch l) ;;
  let train_loss := np_float (loss_fn params batch) in
  let loss_history := jax_loss_history l ++ [train_loss] in
  let printed :=
    if (epoch mod print_every =? 0)%Z
    then jax_printed l ++ [(epoch, train_loss)]
    else jax_printed l in
  ret (JaxLocals params (jax_opt_state l) (jax_total_steps l) (jax_batch l)
         loss_history printed).

(** The local variables of [sgd_jax] when it reaches its [return]. *)
Definition sgd_jax_locals (params : Params)
  (loss_fn : Params -> Batch -> Loss)
  (batch_stream : Batching.batch_stream Row Lbl)
  (max_epochs : Z) (opt_init : Params -> OptState)
  (opt_update : Z -> Params -> OptState -> OptState)
  (get_params : OptState -> Params) : result jax_locals :=
  let loss_history : list Float := [] in
  let opt_state := opt_init params in
  let print_every := Z.max 1 (int_tenth max_epochs) in
  let total_steps := 0%Z in
  for_each (range max_epochs)
    (jax_epoch_body loss_fn batch_stream opt_update get_params print_every)
    (JaxLocals params opt_state total_steps None loss_history []).

(** [sgd_jax(params, loss_fn, batch_stream, max_epochs, opt_init, opt_update,
    get_params)]: the returned pair [(params, loss_history)] and the lines
    printed. *)
Definition sgd_jax (params : Params)
  (loss_fn : Params -> Batch -> Loss)
  (batch_stream : Batching.batch_stream Row Lbl)
  (max_epochs : Z) (opt_init : Params -> OptState)
  (opt_update : Z -> Params -> OptState -> OptState)
  (get_params : OptState -> Params)
  : result ((Params * list Float) * list (progress Float)) :=
  l <- sgd_jax_locals params loss_fn batch_stream max_epochs
         opt_init opt_update get_params ;;
  ret ((jax_params l, jax_loss_history l), jax_printed l).

(** One pass over the stream seen from outside: the step counter and the
    optimizer state after the batches of one epoch. *)
Definition epoch_pass (loss_fn : Params -> Batch -> Loss)
  (batches : Batching.batch_stream Row Lbl)
  (opt_update : Z -> Params -> OptState -> OptState)
  (get_params : OptState -> Params) (s : Z * OptState) : Z * OptState :=
  fold_left
    (fun s b =>
       ((fst s + 1)%Z,
        update loss_fn opt_update get_params (fst s + 1)%Z (snd s)
          (as_tuple b)))
    batches s.

(** The optimizer state after [k] epochs. *)
Definition state_after (params : Params) (loss_fn : Params -> Batch -> Loss)
  (batches : Batching.batch_stream Row Lbl) (opt_init : Params -> OptState)
  (opt_update : Z -> Params -> OptState -> OptState)
  (get_params : OptState -> Params) (k : nat) : Z * OptState :=
  Nat.iter k (epoch_pass loss_fn batches opt_update get_params)
    (0%Z, opt_init params).

(** The loss that epoch [e] reports when the stream ends with [b_last]: the
    loss function at the parameters extracted after that epoch, on that
    batch, as a Python float. *)
Definition reported_loss (params : Params)
  (loss_fn : Params -> Batch -> Loss)
  (batches : Batching.batch_stream Row Lbl) (opt_init : Params -> OptState)
  (opt_update : Z -> Params -> OptState -> OptState)
  (get_params : OptState -> Params)
  (b_last : Batching.batch_dict Row Lbl) (e : nat) : Float :=
  np_float
    (loss_fn
       (get_params
          (snd (state_after params loss_fn batches opt_init opt_update
                  get_params (S e))))
       (as_tuple b_last)).

(** An optimizer that also records the index of every [opt_update] call. *)
Definition recording_init (opt_init : Params -> OptState)
  : Params -> OptState * list Z :=
  fun x0 => (opt_init x0, []).

Definition recording_update
  (opt_update : Z -> Params -> OptState -> OptState)
  : Z -> Params -> OptState * list Z -> OptState * list Z :=
  fun i g s => (opt_update i g (fst s), snd s ++ [i]).

Definition recording_get_params (get_params : OptState -> Params)
  : OptState * list Z -> Params :=
  fun s => get_params (fst s).

End Optimizer.

(** *** The optimizer of the last cell: [optimizers.sgd] at a constant rate *)

(** [optimizers.constant(step_size)]. *)
Definition optimizers_constant (step_size : Scalar) : Z -> Scalar :=
  fun _ => step_size.

(** [optimizers.sgd(step_size)]: [init(x0) = x0],
    [update(i, g, x) = x - step_size(i) * g], [get_params(x) = x]. *)
Definition optimizers_sgd_init : Params -> Params := fun x0 => x0.

Definition optimizers_sgd_update (step_size : Z -> Scalar)
  : Z -> Params -> Params -> Params :=
  fun i g x => sub x (scale (step_size i) g).

Definition optimizers_sgd_get_params : Params -> Params := fun x => x.

End Loops.

End Training.

(** ** The objective: negative log likelihood of logistic regression *)

Module Objective.

Local Open Scope R_scope.

Definition vector : Type := list R.
Definition matrix : Type := list (list R).

(** *** Array operations *)

(** [jnp.sum] of a 1-D array. *)
Definition sum_list (v : vector) : R := fold_right Rplus 0 v.

(** Elementwise operations on 1-D arrays of one shape. *)
Definition map2 (f : R -> R -> R) (a b : vector) : vector :=
  map (fun p => f (fst p) (snd p)) (combine a b).

Definition vadd : vector -> vector -> vector := map2 Rplus.
Definition vsub : vector -> vector -> vector := map2 Rminus.
Definition vmul : vector -> vector -> vector := map2 Rmult.

(** [jnp.dot] of two 1-D arrays. *)
Definition vdot (a b : vector) : R := sum_list (vmul a b).

(** Number of columns and [j]-th column of a 2-D array. *)
Definition ncols (A : matrix) : nat := length (hd [] A).
Definition column (j : nat) (A : matrix) : vector :=
  map (fun row => nth j row 0) A.

(** [jnp.dot] of a 2-D array with a 1-D array. *)
Definition matvec (A : matrix) (v : vector) : vector :=
  map (fun row => vdot row v) A.

(** [jnp.dot] of two 2-D arrays. *)
Definition matmul (A B : matrix) : matrix :=
  map (fun row => map (fun j => vdot row (column j B)) (seq 0 (ncols B))) A.

(** [jnp.diag] of a 1-D array. *)
Definition diag (v : vector) : matrix :=
  map (fun i =>
         map (fun k => if Nat.eqb i k then nth i v 0 else 0)
           (seq 0 (length v)))
    (seq 0 (length v)).

(** [jnp.sum(A, axis=0)]. *)
Definition sum_axis0 (A : matrix) : vector :=
  map (fun j => sum_list (column j A)) (seq 0 (ncols A)).

(** [A.T]. *)
Definition transpose (A : matrix) : matrix :=
  map (fun j => column j A) (seq 0 (ncols A)).

(** [jnp.max] of a non-empty 1-D array. *)
Definition amax (row : vector) : R :=
  match row with
  | [] => 0
  | x :: rest => fold_left Rmax rest x
  end.

(** [logsumexp] along one row: the maximum is taken out of the exponentials. *)
Definition logsumexp (row : vector) : R :=
  let m := amax row in
  ln (sum_list (map (fun x => exp (x - m)) row)) + m.

(** *** The functions of the notebook *)

(** [BCE_with_logits(logits, targets)]. *)
Definition BCE_with_logits (logits targets : vector) : R :=
  let N := length logits in
  let logits_plus := map (fun a => [0; a]) logits in
  let logits_minus := map (fun a => [0; - a]) logits in
  let logp1 := map (fun row => - logsumexp row) logits_minus in
  let logp0 := map (fun row => - logsumexp row) logits_plus in
  let logprobs :=
    vadd (vmul logp1 targets) (vmul logp0 (map (fun t => 1 - t) targets)) in
  - sum_list logprobs / INR N.

(** [sigmoid(x)]. *)
Definition sigmoid (x : R) : R := 0.5 * (tanh (x / 2) + 1).

(** [predict_logit(weights, inputs)]. [jnp.dot] raises when the rows of
    [inputs] and [weights] differ in length; [matvec] is its value when they
    agree, and reads both up to the shorter one otherwise. What is stated
    of the values below is about shapes that agree. *)
Definition predict_logit (weights : vector) (inputs : matrix) : vector :=
  matvec inputs weights.

(** [predict_prob(weights, inputs)]. *)
Definition predict_prob (weights : vector) (inputs : matrix) : vector :=
  map sigmoid (predict_logit weights inputs).

(** [NLL(weights, batch)]. *)
Definition NLL (weights : vector) (batch : matrix * vector) : R :=
  let '(X, y) := batch in
  let logits := predict_logit weights X in
  BCE_with_logits logits y.

(** [NLL_grad(weights, batch)]. *)
Definition NLL_grad (weights : vector) (batch : matrix * vector) : vector :=
  let '(X, y) := batch in
  let N := length X in
  let mu := predict_prob weights X in
  let g :=
    map (fun s => s / INR N) (sum_axis0 (matmul (diag (vsub mu y)) X)) in
  g.

(** [training_loss(w)] and [training_grad(w)], the objective and the
    Jacobian handed to [scipy.optimize.minimize]; [X_train] and [y_train]
    are the globals they read. *)
Definition training_loss (X_train : matrix) (y_train : vector) (w : vector)
  : R :=
  NLL w (X_train, y_train).

Definition training_grad (X_train : matrix) (y_train : vector) (w : vector)
  : vector :=
  NLL_grad w (X_train, y_train).

(** *** The formulas of the specification *)

(** [mean] of a 1-D array. *)
Definition mean (v : vector) : R := sum_list v / INR (length v).

(** The naive loss,
    [-mean(y*log(sigmoid(a)) + (1-y)*log(1-sigmoid(a)))] for the logits [a]. *)
Definition NLL_naive (weights : vector) (batch : matrix * vector) : R :=
  let '(X, y) := batch in
  let a := predict_logit weights X in
  - mean (vadd (vmul y (map (fun a_n => ln (sigmoid a_n)) a))
            (vmul (map (fun y_n => 1 - y_n) y)
               (map (fun a_n => ln (1 - sigmoid a_n)) a))).

(** The gradient formula, [(1/N) * X^T . (sigmoid(X w) - y)]. *)
Definition gradient_formula (weights : vector) (batch : matrix * vector)
  : vector :=
  let '(X, y) := batch in
  let N := length X in
  map (fun s => 1 / INR N * s)
    (matvec (transpose X) (vsub (map sigmoid (matvec X weights)) y)).

(** The log probability of one example with logit [a] and target [t], as
    [BCE_with_logits] computes it. *)
Definition logprob (a t : R) : R :=
  - logsumexp [0; - a] * t + - logsumexp [0; a] * (1 - t).

(** The weight vector with coordinate [j] set to [t]. *)
Fixpoint set_coord (w : vector) (j : nat) (t : R) : vector :=
  match w, j with
  | [], _ => []
  | _ :: w', O => t :: w'
  | x :: w', S j' => x :: set_coord w' j' t
  end.

(** [g] is the partial derivative of the loss in coordinate [j] at [w]:
    what differentiating [NLL] in its first argument yields there. *)
Definition partial_derivative (loss : vector -> matrix * vector -> R)
  (w : vector) (batch : matrix * vector) (j : nat) (g : R) : Prop :=
  derivable_pt_lim (fun t => loss (set_coord w j t) batch) (nth j w 0) g.

(** A batch of [N] rows of [D] features with [N] labels. *)
Definition well_shaped (D : nat) (batch : matrix * vector) : Prop :=
  let '(X, y) := batch in
  length y = length X /\ Forall (fun row => length row = D) X.

End Objective.

(** ** The cells that train: a stream, then [sgd], then [sgd_jax] *)

Module Notebook.

Section Cells.

Variables Row Lbl Params Scalar Loss Float : Type.
Variable sub : Params -> Params -> Params.
Variable scale : Scalar -> Params -> Params.
Variable zero_loss : Loss.
Variable add_loss : Loss -> Loss -> Loss.
Variable int_tenth : Z -> Z.
Variable grad :
  (Params -> Training.Batch Row Lbl -> Loss) ->
  Params -> Training.Batch Row Lbl -> Params.
Variable np_float : Loss -> Float.

(** The two cells after [sgd] and [sgd_jax] are defined:
    [batch_stream = make_batch_stream(X_train, y_train, batch_size)],
    [w_mle_sgd = sgd(w_init, NLL, NLL_grad, batch_stream, max_epochs, lr)],
    then [optimizers.sgd] at the constant rate [lr] and
    [w_mle_sgd2, history = sgd_jax(w_init, NLL, batch_stream, max_epochs,
    opt_init, opt_update, get_params)] over the same stream, run in this order
    up to the first exception. The data, the loss, its gradient and the
    settings are arguments; the value is [(w_mle_sgd, (w_mle_sgd2, history))],
    what the cells print is left out. *)
Definition sgd_cells (X_train : list Row) (y_train : list Lbl)
  (batch_size : Z) (w_init : Params)
  (loss_fn : Params -> Training.Batch Row Lbl -> Loss)
  (grad_loss_fn : Params -> Training.Batch Row Lbl -> Params)
  (max_epochs : Z) (lr : Scalar)
  : result (Training.tuple1 Params * (Params * list Float)) :=
  made <- Batching.make_batch_stream X_train y_train batch_size ;;
  let batch_stream := fst made in
  r <- Training.sgd sub scale zero_loss add_loss int_tenth w_init loss_fn
         grad_loss_fn batch_stream max_epochs lr ;;
  let w_mle_sgd := fst r in
  let schedule := Training.optimizers_constant lr in
  r2 <- Training.sgd_jax int_tenth grad np_float w_init loss_fn batch_stream
          max_epochs (@Training.optimizers_sgd_init Params)
          (Training.optimizers_sgd_update sub scale schedule)
          (@Training.optimizers_sgd_get_params Params) ;;
  ret (w_mle_sgd, fst r2).

End Cells.

End Notebook.

(** ** A small instance, used to run the definitions *)

Module Demo.

(** Two batches of integer rows; parameters, losses and rates are integers. *)
Definition batches : Batching.batch_stream Z Z :=
  [Batching.BatchDict [1; 2]%Z [0; 1]%Z; Batching.BatchDict [3]%Z [1]%Z].

Definition loss_fn (p : Z) (batch : Training.Batch Z Z) : Z :=
  (p * p + fold_right Z.add 0 (fst batch))%Z.

(** A difference quotient stands for the gradient. *)
Definition grad (f : Z -> Training.Batch Z Z -> Z) (p : Z)
  (batch : Training.Batch Z Z) : Z :=
  (f (p + 1) batch - f p batch)%Z.

Definition int_tenth (n : Z) : Z := Z.quot n 10.

Definition np_float (v : Z) : Z := v.

Definition opt_init (p : Z) : Z * Z := (p, 0%Z).

Definition opt_update (i : Z) (g : Z) (s : Z * Z) : Z * Z :=
  (fst s - i * g, snd s + g)%Z.

Definition get_params (s : Z * Z) : Z := fst s.

End Demo.

(** * Properties *)

(** ** The error monad *)

Lemma for_each_app {A St} (xs ys : list A) (body : St -> A -> result St)
  (st : St) :
  for_each (xs ++ ys) body st = bind (for_each xs body st) (for_each ys body).
Proof.
  revert st; induction xs as [|x xs IH]; intros st; simpl.
  - reflexivity.
  - destruct (body st x) as [e|st']; simpl; [reflexivity|apply IH].
Qed.

Lemma for_each_pure {A St} (xs : list A) (f : St -> A -> St) (st : St) :
  for_each xs (fun s a => ret (f s a)) st = ret (fold_left f xs st).
Proof.
  revert st; induction xs as [|x xs IH]; intros st; simpl; [reflexivity|].
  apply IH.
Qed.

Lemma range_nonpos (n : Z) : (n <= 0)%Z -> range n = [].
Proof.
  intros Hn; unfold range.
  replace (Z.to_nat n) with 0%nat by lia; reflexivity.
Qed.

Lemma range_of_nat (k : nat) : range (Z.of_nat k) = map Z.of_nat (seq 0 k).
Proof. unfold range; now rewrite Nat2Z.id. Qed.

Lemma range_succ (k : nat) :
  range (Z.of_nat (S k)) = range (Z.of_nat k) ++ [Z.of_nat k].
Proof.
  rewrite !range_of_nat, seq_S, map_app; reflexivity.
Qed.

Lemma range_pos (n : Z) :
  (1 <= n)%Z -> exists rest, range n = 0%Z :: rest.
Proof.
  intros Hn; unfold range.
  destruct (Z.to_nat n) as [|k] eqn:E; [lia|].
  simpl; eauto.
Qed.

Lemma range_to_nat (n : Z) : range n = range (Z.of_nat (Z.to_nat n)).
Proof. unfold range; now rewrite Nat2Z.id. Qed.

Lemma nil_or_last {A} (l : list A) :
  l = [] \/ exists front a, l = front ++ [a].
Proof.
  destruct l as [|x l] using rev_ind; [now left|right; eauto].
Qed.

Lemma map_of_nat_seq_shift (a s n : nat) :
  map Z.of_nat (seq (a + s) n)
  = map (fun m => (Z.of_nat a + Z.of_nat m)%Z) (seq s n).
Proof.
  revert s; induction n as [|n IH]; intros s; [reflexivity|].
  cbn [seq map]. f_equal; [lia|].
  rewrite <- IH. f_equal. f_equal. lia.
Qed.

(** ** Minibatches *)

Module BatchingFacts.

Import Batching.

Section Facts.

Variables Row Lbl : Type.

Implicit Types (input : list (example Row Lbl)) (X : list Row) (y : list Lbl).

(** Without [drop_remainder] the batches, put end to end, are the input:
    no element is left out. *)
Lemma batch_iter_concat (n : nat) :
  (0 < n)%nat ->
  forall fuel input, (length input < fuel)%nat ->
    concat (batch_iter fuel n false input) = input.
Proof.
  intros Hn; induction fuel as [|fuel IH]; intros input Hf; [lia|].
  simpl.
  destruct (firstn n input) as [|e es] eqn:E.
  - destruct input as [|a input]; [reflexivity|].
    destruct n; [lia|simpl in E; discriminate].
  - rewrite <- E. cbn [concat].
    rewrite IH.
    + apply firstn_skipn.
    + rewrite length_skipn.
      destruct input;
        [rewrite firstn_nil in E; discriminate|cbn [length] in *; lia].
Qed.

(** Every batch has at most [n] elements and at least one. *)
Lemma batch_iter_sizes (n : nat) (dr : bool) :
  forall fuel input,
    Forall (fun b => (1 <= length b <= n)%nat) (batch_iter fuel n dr input).
Proof.
  induction fuel as [|fuel IH]; intros input; simpl; [constructor|].
  destruct (firstn n input) as [|e es] eqn:E; [constructor|].
  destruct (dr && _)%bool; [constructor|].
  constructor; [|apply IH].
  rewrite <- E, length_firstn.
  assert (length (firstn n input) = S (length es)) by now rewrite E.
  rewrite length_firstn in H. lia.
Qed.

(** The number of batches without [drop_remainder]: the quotient, rounded
    up. *)
Lemma batch_iter_count (n : nat) :
  (0 < n)%nat ->
  forall fuel input, (length input < fuel)%nat ->
    length (batch_iter fuel n false input) = ((length input + n - 1) / n)%nat.
Proof.
  intros Hn; induction fuel as [|fuel IH]; intros input Hf; [lia|].
  simpl.
  destruct (firstn n input) as [|e es] eqn:E.
  - destruct input as [|a input]; [|destruct n; [lia|simpl in E; discriminate]].
    simpl. symmetry; apply Nat.div_small; lia.
  - cbn [length]. rewrite IH.
    + rewrite length_skipn.
      assert (Hlen : (1 <= length input)%nat)
        by (destruct input;
            [rewrite firstn_nil in E; discriminate|cbn [length]; lia]).
      destruct (Nat.le_gt_cases n (length input)) as [Hge|Hlt].
      * replace (length input + n - 1)%nat
          with ((length input - n + n - 1) + 1 * n)%nat by lia.
        rewrite Nat.div_add by lia. lia.
      * replace (length input - n)%nat with 0%nat by lia.
        rewrite (Nat.div_small (0 + n - 1)) by lia.
        symmetry.
        replace (length input + n - 1)%nat
          with ((length input - 1) + 1 * n)%nat by lia.
        rewrite Nat.div_add by lia.
        rewrite Nat.div_small by lia. reflexivity.
    + rewrite length_skipn.
      destruct input;
        [rewrite firstn_nil in E; discriminate|cbn [length] in *; lia].
Qed.

Lemma from_tensor_slices_ok X y :
  length X = length y ->
  exists dataset,
    from_tensor_slices X y = inr dataset /\
    map (@ex_X _ _) dataset = X /\ map (@ex_y _ _) dataset = y /\
    length dataset = length X.
Proof.
  intros Hlen; unfold from_tensor_slices.
  rewrite Hlen, Nat.eqb_refl.
  eexists; split; [reflexivity|].
  rewrite length_map, length_combine, <- Hlen, Nat.min_id.
  repeat split.
  - revert y Hlen; induction X as [|r X IH]; intros [|c y] Hlen;
      simpl in *; try discriminate; [reflexivity|].
    f_equal; apply IH; lia.
  - revert y Hlen; induction X as [|r X IH]; intros [|c y] Hlen;
      simpl in *; try discriminate; [reflexivity|].
    f_equal; apply IH; lia.
Qed.

Lemma stack_concat_X (chunks : list (list (example Row Lbl))) :
  concat (map (@bd_X _ _) (map (@stack _ _) chunks))
  = map (@ex_X _ _) (concat chunks).
Proof.
  induction chunks as [|c cs IH]; simpl; [reflexivity|].
  now rewrite map_app, IH.
Qed.

Lemma stack_concat_y (chunks : list (list (example Row Lbl))) :
  concat (map (@bd_y _ _) (map (@stack _ _) chunks))
  = map (@ex_y _ _) (concat chunks).
Proof.
  induction chunks as [|c cs IH]; simpl; [reflexivity|].
  now rewrite map_app, IH.
Qed.

(** What [make_batch_stream] returns on a dataset of [N] examples for a
    positive batch size: the rows in their order, none left out, in
    [ceil(N / batch_size)] batches of at most [batch_size] rows, while the
    printed count is [floor(N / batch_size)]. *)
Lemma make_batch_stream_ok X y (batch_size : Z) :
  length X = length y -> (0 < batch_size)%Z ->
  exists stream,
    make_batch_stream X y batch_size
    = inr (stream,
           SplitMessage (Z.of_nat (length X))
             (Z.of_nat (length X) / batch_size) batch_size) /\
    concat (map (@bd_X _ _) stream) = X /\
    concat (map (@bd_y _ _) stream) = y /\
    length stream
    = ((length X + Z.to_nat batch_size - 1) / Z.to_nat batch_size)%nat /\
    Forall (fun b => (1 <= length (bd_X b) <= Z.to_nat batch_size)%nat) stream.
Proof.
  intros Hlen Hbs.
  destruct (from_tensor_slices_ok X y Hlen) as (ds & Hds & HX & Hy & Hn).
  unfold make_batch_stream, batch. rewrite Hds; unfold bind at 1.
  destruct (Z.leb_spec batch_size 0) as [Hle|_]; [lia|].
  unfold bind, ret.
  eexists; split; [reflexivity|].
  assert (Hpos : (0 < Z.to_nat batch_size)%nat) by lia.
  repeat split.
  - rewrite stack_concat_X, batch_iter_concat by lia. exact HX.
  - rewrite stack_concat_y, batch_iter_concat by lia. exact Hy.
  - rewrite length_map, batch_iter_count by lia. now rewrite Hn.
  - apply Forall_map.
    eapply Forall_impl; [|apply batch_iter_sizes].
    intros b Hb; simpl. now rewrite length_map.
Qed.

(** A batch size that is not positive is rejected. *)
Lemma make_batch_stream_nonpositive X y (batch_size : Z) :
  length X = length y -> (batch_size <= 0)%Z ->
  make_batch_stream X y batch_size
  = inl (InvalidArgumentError "Batch size must be greater than zero.").
Proof.
  intros Hlen Hbs.
  destruct (from_tensor_slices_ok X y Hlen) as (ds & Hds & _).
  unfold make_batch_stream, batch. rewrite Hds; unfold bind at 1.
  destruct (Z.leb_spec batch_size 0) as [_|Hlt]; [reflexivity|lia].
Qed.

(** A batch size above the number of examples gives one batch, which holds
    every example. *)
Lemma make_batch_stream_oversized X y (batch_size : Z) :
  length X = length y -> (1 <= length X)%nat ->
  (Z.of_nat (length X) < batch_size)%Z ->
  make_batch_stream X y batch_size
  = inr ([BatchDict X y],
         SplitMessage (Z.of_nat (length X)) 0 batch_size).
Proof.
  intros Hlen HN Hbs.
  destruct (from_tensor_slices_ok X y Hlen) as (ds & Hds & HX & Hy & Hn).
  unfold make_batch_stream, batch. rewrite Hds; unfold bind at 1.
  destruct (Z.leb_spec batch_size 0) as [Hle|_]; [lia|].
  unfold bind, ret.
  rewrite Z.div_small by lia.
  cbn [batch_iter].
  assert (Hall : firstn (Z.to_nat batch_size) ds = ds)
    by (apply firstn_all2; lia).
  rewrite Hall.
  destruct ds as [|e ds]; [simpl in Hn; lia|].
  rewrite skipn_all2 by lia.
  cbn [andb map]. unfold stack; rewrite HX, Hy.
  cbn [length batch_iter]. rewrite firstn_nil. reflexivity.
Qed.

Lemma fold_left_snoc {A} (l acc : list A) :
  fold_left (fun seen b => seen ++ [b]) l acc = acc ++ l.
Proof.
  revert acc; induction l as [|b l IH]; intros acc; simpl.
  - now rewrite app_nil_r.
  - rewrite IH, <- app_assoc. reflexivity.
Qed.

End Facts.

End BatchingFacts.

(** C1 does not hold of the code. With 100 examples and a batch size of 30
    the stream has four batches, of 30, 30, 30 and 10 rows: the last ten rows
    are kept, not dropped, while the printed line announces
    [floor(100/30) = 3] batches. *)
Theorem make_batch_stream_100_by_30 :
  exists stream msg,
    Batching.make_batch_stream (seq 0 100) (repeat 0%nat 100) 30
    = inr (stream, msg) /\
    map (fun b => length (Batching.bd_X b)) stream = [30; 30; 30; 10]%nat /\
    concat (map (@Batching.bd_X _ _) stream) = seq 0 100 /\
    Batching.msg_nbatches msg = 3%Z.
Proof.
  eexists; eexists; split; [vm_compute; reflexivity|].
  repeat split; vm_compute; reflexivity.
Qed.

(** C6 does not hold of the code in its second half. With three examples and
    a batch size of five the stream is not empty: it has one batch, with the
    three examples, while the printed line announces zero batches. *)
Theorem make_batch_stream_3_by_5 :
  Batching.make_batch_stream [10; 11; 12]%nat [0; 1; 0]%nat 5
  = inr ([Batching.BatchDict [10; 11; 12]%nat [0; 1; 0]%nat],
         Batching.SplitMessage 3 0 5).
Proof. vm_compute; reflexivity. Qed.

(** ** Iterating over the stream *)

Module IterationFacts.

Import Iteration.

Section Facts.

Variable A : Type.

Lemma nth_error_last_cell (h : heap A) (cell : list A) :
  nth_error (h ++ [cell]) (length h) = Some cell.
Proof. now rewrite nth_error_app2, Nat.sub_diag by lia. Qed.

Lemma set_last_cell (h : heap A) (cell rest : list A) :
  set_cell (h ++ [cell]) (length h) rest = h ++ [rest].
Proof.
  unfold set_cell.
  rewrite firstn_app, firstn_all, Nat.sub_diag. cbn [firstn].
  rewrite app_nil_r, skipn_all2 by (rewrite length_app; simpl; lia).
  reflexivity.
Qed.

(** The loop over the iterator in the last cell of the heap gives what
    [for_each] gives over the elements that iterator has left; a loop that
    ends without an exception leaves the iterator with nothing. *)
Lemma for_loop_last_cell {St} (body : St -> A -> result St) :
  forall (rest : list A) (fuel : nat) (st : St) (h : heap A),
    (length rest < fuel)%nat ->
    exists left,
      for_loop fuel (length h) body st (h ++ [rest])
      = Some (for_each rest body st, h ++ [left]) /\
      (forall st', for_each rest body st = inr st' -> left = []).
Proof.
  induction rest as [|a rest IH]; intros fuel st h Hf.
  - destruct fuel as [|fuel]; [simpl in Hf; lia|].
    cbn [for_loop]. unfold next_. rewrite nth_error_last_cell.
    exists []. split; [reflexivity|auto].
  - destruct fuel as [|fuel]; [simpl in Hf; lia|].
    cbn [for_loop]. unfold next_.
    rewrite nth_error_last_cell, set_last_cell.
    cbn [for_each]. unfold bind.
    destruct (body st a) as [e|st1].
    + exists rest. split; [reflexivity|discriminate].
    + apply IH. simpl in Hf; lia.
Qed.


(** A [for] over an iterator object runs the body over what the iterator has
    left, and uses it up. *)
Lemma for_in_iterator {St} (rest : list A) (body : St -> A -> result St)
  (st : St) (h : heap A) :
  exists left,
    for_in (Iterator A (length h)) body st (h ++ [rest])
    = Some (for_each rest body st, h ++ [left]) /\
    (forall st', for_each rest body st = inr st' -> left = []).
Proof.
  unfold for_in, iter_.
  replace (nth (length h) (h ++ [rest]) []) with rest
    by (rewrite app_nth2, Nat.sub_diag by lia; reflexivity).
  apply for_loop_last_cell. lia.
Qed.

Lemma for_each_collect (l acc : list A) :
  for_each l (fun seen b => ret (seen ++ [b])) acc = inr (acc ++ l).
Proof.
  rewrite (for_each_pure l (fun seen b => seen ++ [b]) acc).
  unfold ret. f_equal.
  revert acc; induction l as [|b l IH]; intros acc; simpl.
  - now rewrite app_nil_r.
  - rewrite IH, <- app_assoc. reflexivity.
Qed.

End Facts.

Section Epochs.

Variables Row Lbl : Type.

Import Batching.


(** Two epochs over one iterator object instead: the first epoch uses the
    iterator up and the second sees nothing. That epochs agree is a
    property of the object that is iterated, not of the loop. *)
Lemma epochs_over_iterator (rest : list (batch_dict Row Lbl))
  (h : heap (batch_dict Row Lbl)) :
  epochs_seen 2 (Iterator _ (length h)) (h ++ [rest])
  = Some (inr [rest; []], h ++ [[]]).
Proof.
  unfold epochs_seen. change (range 2) with [0%Z; 1%Z].
  cbn [epochs_over].
  destruct (for_in_iterator rest (fun seen b => ret (seen ++ [b])) [] h)
    as (left & Hrun & Hleft).
  rewrite Hrun, for_each_collect in *. cbn [app] in *.
  rewrite (Hleft rest eq_refl). clear Hrun Hleft.
  destruct (for_in_iterator [] (fun seen b => ret (seen ++ [b])) [] h)
    as (left' & Hrun & Hleft).
  rewrite Hrun. cbn [for_each ret app] in *.
  now rewrite (Hleft [] eq_refl).
Qed.

End Epochs.

End IterationFacts.



(** ** The training loops *)

Module TrainingFacts.

Import Training.

Section Facts.

Variables Row Lbl Params Scalar Loss Float : Type.
Variable sub : Params -> Params -> Params.
Variable scale : Scalar -> Params -> Params.
Variable zero_loss : Loss.
Variable add_loss : Loss -> Loss -> Loss.
Variable int_tenth : Z -> Z.
Variable grad :
  (Params -> Batch Row Lbl -> Loss) -> Params -> Batch Row Lbl -> Params.
Variable np_float : Loss -> Float.

Variable loss_fn : Params -> Batch Row Lbl -> Loss.
Variable batches : Batching.batch_stream Row Lbl.

(** The binding of the loop variable [batch] after a pass over [bs]. *)
Lemma rebound_last (bs front : list (Batching.batch_dict Row Lbl))
  (b_last : Batching.batch_dict Row Lbl) (v : option (Batch Row Lbl)) :
  bs = front ++ [b_last] ->
  fold_left (fun _ b => Some (as_tuple b)) bs v = Some (as_tuple b_last).
Proof. intros ->. now rewrite fold_left_app. Qed.

Section Jax.

Variable OptState : Type.
Variable opt_init : Params -> OptState.
Variable opt_update : Z -> Params -> OptState -> OptState.
Variable get_params : OptState -> Params.

(** The batch loop of [sgd_jax] never fails; it advances the step counter
    and the optimizer state, and leaves [batch] bound to the last batch. *)
Lemma jax_batch_loop (bs : Batching.batch_stream Row Lbl)
  (l : jax_locals Row Lbl Params Float OptState) :
  for_each bs (jax_batch_body grad loss_fn opt_update get_params) l
  = inr (JaxLocals (jax_params l)
           (snd (epoch_pass grad loss_fn bs opt_update get_params
                   (jax_total_steps l, jax_opt_state l)))
           (fst (epoch_pass grad loss_fn bs opt_update get_params
                   (jax_total_steps l, jax_opt_state l)))
           (fold_left (fun _ b => Some (as_tuple b)) bs (jax_batch l))
           (jax_loss_history l) (jax_printed l)).
Proof.
  revert l; induction bs as [|b bs IH]; intros l.
  - destruct l; reflexivity.
  - cbn [for_each]. unfold jax_batch_body at 1. unfold ret, bind.
    rewrite IH. reflexivity.
Qed.

(** One epoch of [sgd_jax] over a stream that ends with [b_last]. *)
Lemma jax_epoch_step (front : list (Batching.batch_dict Row Lbl))
  (b_last : Batching.batch_dict Row Lbl) (print_every epoch : Z)
  (l : jax_locals Row Lbl Params Float OptState) :
  batches = front ++ [b_last] ->
  let s' := epoch_pass grad loss_fn batches opt_update get_params
              (jax_total_steps l, jax_opt_state l) in
  let train_loss :=
    np_float (loss_fn (get_params (snd s')) (as_tuple b_last)) in
  jax_epoch_body grad np_float loss_fn batches opt_update get_params
    print_every l epoch
  = inr (JaxLocals (get_params (snd s')) (snd s') (fst s')
           (Some (as_tuple b_last))
           (jax_loss_history l ++ [train_loss])
           (if (epoch mod print_every =? 0)%Z
            then jax_printed l ++ [(epoch, train_loss)]
            else jax_printed l)).
Proof.
  intros Hb s' train_loss. unfold jax_epoch_body.
  rewrite jax_batch_loop. unfold bind.
  cbn [jax_batch jax_opt_state jax_total_steps jax_loss_history jax_printed].
  erewrite rebound_last by exact Hb.
  reflexivity.
Qed.

(** The local variables of [sgd_jax] after [k] epochs over a stream that
    ends with [b_last]. *)
Lemma jax_epochs (front : list (Batching.batch_dict Row Lbl))
  (b_last : Batching.batch_dict Row Lbl) (print_every : Z) (params : Params)
  (k : nat) :
  batches = front ++ [b_last] ->
  let s := state_after grad params loss_fn batches opt_init opt_update
             get_params k in
  let reported := reported_loss grad np_float params loss_fn batches opt_init
                    opt_update get_params b_last in
  for_each (range (Z.of_nat k))
    (jax_epoch_body grad np_float loss_fn batches opt_update get_params
       print_every)
    (JaxLocals params (opt_init params) 0%Z None [] [])
  = inr (JaxLocals
           (match k with O => params | S _ => get_params (snd s) end)
           (snd s) (fst s)
           (match k with O => None | S _ => Some (as_tuple b_last) end)
           (map reported (seq 0 k))
           (progress_lines print_every reported k)).
Proof.
  intros Hb. induction k as [|k IH]; intros s reported.
  - reflexivity.
  - rewrite range_succ, for_each_app, IH. cbn [bind for_each].
    erewrite jax_epoch_step by exact Hb. unfold bind.
    cbn [jax_total_steps jax_opt_state jax_loss_history jax_printed].
    unfold progress_lines.
    rewrite seq_S, map_app, filter_app, map_app. cbn [filter map Nat.add].
    unfold s, reported, reported_loss, state_after. cbn [Nat.iter].
    rewrite <- surjective_pairing.
    destruct (_ =? 0)%Z; [reflexivity|].
    now rewrite app_nil_r.
Qed.

(** Over an empty stream the first epoch of [sgd_jax] reads [batch] before
    anything bound it. *)
Lemma jax_empty_stream_fails (params : Params) (max_epochs : Z) :
  batches = [] -> (1 <= max_epochs)%Z ->
  sgd_jax_locals int_tenth grad np_float params loss_fn batches max_epochs
    opt_init opt_update get_params
  = inl (UnboundLocalError "batch").
Proof.
  intros Hb HE. unfold sgd_jax_locals.
  destruct (range_pos HE) as [rest ->].
  rewrite Hb. reflexivity.
Qed.

(** The local variables of [sgd_jax] at its [return], for a stream that
    ends with [b_last]. *)
Lemma sgd_jax_locals_nonempty (front : list (Batching.batch_dict Row Lbl))
  (b_last : Batching.batch_dict Row Lbl) (params : Params) (max_epochs : Z) :
  batches = front ++ [b_last] ->
  let k := Z.to_nat max_epochs in
  let s := state_after grad params loss_fn batches opt_init opt_update
             get_params k in
  let reported := reported_loss grad np_float params loss_fn batches opt_init
                    opt_update get_params b_last in
  sgd_jax_locals int_tenth grad np_float params loss_fn batches max_epochs
    opt_init opt_update get_params
  = inr (JaxLocals
           (match k with O => params | S _ => get_params (snd s) end)
           (snd s) (fst s)
           (match k with O => None | S _ => Some (as_tuple b_last) end)
           (map reported (seq 0 k))
           (progress_lines (Z.max 1 (int_tenth max_epochs)) reported k)).
Proof.
  intros Hb k s reported. unfold sgd_jax_locals.
  rewrite range_to_nat. fold k.
  now erewrite jax_epochs by exact Hb.
Qed.

End Jax.

Section Sgd.

Variable grad_loss_fn : Params -> Batch Row Lbl -> Params.
Variable lr : Scalar.

(** The batch loop of [sgd] never fails; it moves the parameters through one
    pass, keeps what was printed, and binds [batch_loss] if there is a
    batch. *)
Lemma sgd_batch_loop (bs : Batching.batch_stream Row Lbl)
  (l : sgd_locals Params Loss) (epoch_loss : Loss) :
  exists batch_loss epoch_loss',
    for_each bs (sgd_batch_body sub scale add_loss loss_fn grad_loss_fn lr)
      (l, epoch_loss)
    = inr (SgdLocals (sgd_pass sub scale grad_loss_fn bs lr (sgd_params l))
             batch_loss (sgd_printed l), epoch_loss') /\
    (bs = [] -> batch_loss = sgd_batch_loss l) /\
    (bs <> [] -> batch_loss <> None).
Proof.
  revert l epoch_loss; induction bs as [|b bs IH]; intros l epoch_loss.
  - exists (sgd_batch_loss l), epoch_loss.
    destruct l; repeat split; congruence.
  - cbn [for_each]. unfold sgd_batch_body at 1. unfold ret, bind.
    match goal with
    | |- context [for_each bs _ (?l', ?el')] =>
        destruct (IH l' el') as (bl & el'' & Hrun & Hnil & Hcons)
    end.
    exists bl, el''. rewrite Hrun. cbn [sgd_params sgd_printed].
    repeat split; [discriminate|].
    intros _. destruct bs as [|b' bs].
    + rewrite Hnil by reflexivity. discriminate.
    + apply Hcons. discriminate.
Qed.

(** One epoch of [sgd] over a stream that is not empty. *)
Lemma sgd_epoch_step (print_every epoch : Z) (l : sgd_locals Params Loss) :
  batches <> [] ->
  exists l',
    sgd_epoch_body sub scale zero_loss add_loss loss_fn grad_loss_fn batches
      lr print_every l epoch = inr l' /\
    sgd_params l' = sgd_pass sub scale grad_loss_fn batches lr (sgd_params l).
Proof.
  intros Hb. unfold sgd_epoch_body.
  destruct (sgd_batch_loop batches l zero_loss)
    as (bl & el & Hrun & _ & Hsome).
  rewrite Hrun. cbn [bind fst sgd_batch_loss sgd_params sgd_printed].
  destruct bl as [v|]; [|now destruct (Hsome Hb)].
  destruct (_ =? 0)%Z; cbn [read_local bind ret];
    eexists; split; reflexivity.
Qed.

(** The parameters of [sgd] after [k] epochs over a stream that is not
    empty. *)
Lemma sgd_epochs (print_every : Z) (params : Params) (k : nat) :
  batches <> [] ->
  exists l,
    for_each (range (Z.of_nat k))
      (sgd_epoch_body sub scale zero_loss add_loss loss_fn grad_loss_fn
         batches lr print_every)
      (SgdLocals params None [])
    = inr l /\
    sgd_params l
    = Nat.iter k (sgd_pass sub scale grad_loss_fn batches lr) params.
Proof.
  intros Hb. induction k as [|k (l & Hrun & Hp)].
  - eexists; split; reflexivity.
  - rewrite range_succ, for_each_app, Hrun. cbn [bind for_each].
    destruct (sgd_epoch_step print_every (Z.of_nat k) l Hb)
      as (l' & Hstep & Hp').
    rewrite Hstep. exists l'; split; [reflexivity|].
    now rewrite Hp', Hp, Nat.iter_succ.
Qed.

(** The batch loop of [sgd] over a stream that ends with [b_last] leaves in
    [batch_loss] the loss at the parameters it ends with, on [b_last]. *)
Lemma sgd_batch_loop_last (front : list (Batching.batch_dict Row Lbl))
  (b_last : Batching.batch_dict Row Lbl) (l : sgd_locals Params Loss)
  (epoch_loss : Loss) :
  batches = front ++ [b_last] ->
  let params' := sgd_pass sub scale grad_loss_fn batches lr (sgd_params l) in
  exists epoch_loss',
    for_each batches (sgd_batch_body sub scale add_loss loss_fn grad_loss_fn lr)
      (l, epoch_loss)
    = inr (SgdLocals params' (Some (loss_fn params' (as_tuple b_last)))
             (sgd_printed l), epoch_loss').
Proof.
  intros Hb params'. subst params'. rewrite Hb, for_each_app.
  destruct (sgd_batch_loop front l epoch_loss) as (bl & el & Hrun & _).
  rewrite Hrun. cbn [bind for_each]. unfold sgd_batch_body, ret.
  cbn [sgd_params sgd_printed].
  unfold sgd_pass. rewrite fold_left_app. cbn [fold_left].
  eexists; reflexivity.
Qed.

(** What [sgd] holds and has printed after [k] epochs over a stream that
    ends with [b_last]: epoch [e] reports the loss at the parameters it ends
    with, on [b_last]. *)
Lemma sgd_epochs_printed (front : list (Batching.batch_dict Row Lbl))
  (b_last : Batching.batch_dict Row Lbl) (print_every : Z) (params : Params)
  (k : nat) :
  batches = front ++ [b_last] ->
  let after := fun e => Nat.iter e (sgd_pass sub scale grad_loss_fn batches lr)
                          params in
  exists batch_loss,
    for_each (range (Z.of_nat k))
      (sgd_epoch_body sub scale zero_loss add_loss loss_fn grad_loss_fn
         batches lr print_every)
      (SgdLocals params None [])
    = inr (SgdLocals (after k) batch_loss
             (progress_lines print_every
                (fun e => loss_fn (after (S e)) (as_tuple b_last)) k)).
Proof.
  intros Hb after. induction k as [|k (bl & Hrun)].
  - eexists; reflexivity.
  - rewrite range_succ, for_each_app, Hrun. cbn [bind for_each].
    unfold sgd_epoch_body.
    match goal with
    | |- context [for_each batches _ (?l0, _)] =>
        destruct (sgd_batch_loop_last front b_last l0 zero_loss Hb)
          as (el & Hloop)
    end.
    rewrite Hloop. cbn [bind fst sgd_params sgd_batch_loss sgd_printed].
    unfold progress_lines.
    rewrite seq_S, filter_app, map_app. cbn [filter map Nat.add].
    unfold after at 3 4. rewrite <- !Nat.iter_succ.
    eexists.
    destruct (_ =? 0)%Z; cbn [read_local bind ret map];
      [reflexivity|now rewrite app_nil_r].
Qed.

(** Over an empty stream the first epoch of [sgd] reads [batch_loss] before
    anything bound it. *)
Lemma sgd_empty_stream_fails (params : Params) (max_epochs : Z) :
  batches = [] -> (1 <= max_epochs)%Z ->
  sgd sub scale zero_loss add_loss int_tenth params loss_fn grad_loss_fn
    batches max_epochs lr
  = inl (UnboundLocalError "batch_loss").
Proof.
  intros Hb HE. unfold sgd.
  destruct (range_pos HE) as [rest ->].
  rewrite Hb. cbn [for_each bind]. unfold sgd_epoch_body at 1.
  cbn [for_each bind ret fst sgd_batch_loss].
  rewrite Z.mod_0_l by lia. reflexivity.
Qed.

(** With [optimizers.sgd] at a constant rate, a pass of [sgd_jax] moves the
    parameters as a pass of [sgd] does, when both use one gradient. *)
Lemma epoch_pass_optimizers_sgd (bs : Batching.batch_stream Row Lbl) (i : Z)
  (x : Params) :
  (forall p b, grad loss_fn p b = grad_loss_fn p b) ->
  snd (epoch_pass grad loss_fn bs
         (optimizers_sgd_update sub scale (optimizers_constant lr))
         (@optimizers_sgd_get_params Params) (i, x))
  = sgd_pass sub scale grad_loss_fn bs lr x.
Proof.
  intros Hg. unfold epoch_pass, sgd_pass.
  revert i x; induction bs as [|b bs IH]; intros i x; [reflexivity|].
  cbn [fold_left fst snd]. rewrite IH. f_equal.
  unfold update, optimizers_sgd_update, optimizers_sgd_get_params,
    optimizers_constant.
  now rewrite Hg.
Qed.

Lemma state_after_optimizers_sgd (params : Params) (k : nat) :
  (forall p b, grad loss_fn p b = grad_loss_fn p b) ->
  snd (state_after grad params loss_fn batches
         (@optimizers_sgd_init Params)
         (optimizers_sgd_update sub scale (optimizers_constant lr))
         (@optimizers_sgd_get_params Params) k)
  = Nat.iter k (sgd_pass sub scale grad_loss_fn batches lr) params.
Proof.
  intros Hg. unfold state_after. induction k as [|k IH]; [reflexivity|].
  rewrite !Nat.iter_succ, <- IH.
  rewrite (surjective_pairing (Nat.iter k _ _)) at 1.
  now rewrite epoch_pass_optimizers_sgd.
Qed.

End Sgd.

Section Recording.

Variable OptState : Type.
Variable opt_update : Z -> Params -> OptState -> OptState.
Variable get_params : OptState -> Params.

Lemma epoch_pass_steps (bs : Batching.batch_stream Row Lbl) (i : Z)
  (s : OptState) :
  fst (epoch_pass grad loss_fn bs opt_update get_params (i, s))
  = (i + Z.of_nat (length bs))%Z.
Proof.
  unfold epoch_pass. revert i s; induction bs as [|b bs IH]; intros i s.
  - simpl; lia.
  - cbn [fold_left fst snd length]. rewrite IH. lia.
Qed.

Lemma update_recording (i : Z) (s : OptState) (log : list Z)
  (b : Batch Row Lbl) :
  update grad loss_fn (recording_update opt_update)
    (recording_get_params get_params) i (s, log) b
  = (update grad loss_fn opt_update get_params i s b, log ++ [i]).
Proof. reflexivity. Qed.

(** A pass with the recording optimizer is the pass of the optimizer, with
    the indices [i+1, ..., i+B] added to the record. *)
Lemma epoch_pass_recording (bs : Batching.batch_stream Row Lbl) (i : Z)
  (s : OptState) (log : list Z) :
  epoch_pass grad loss_fn bs (recording_update opt_update)
    (recording_get_params get_params) (i, (s, log))
  = (fst (epoch_pass grad loss_fn bs opt_update get_params (i, s)),
     (snd (epoch_pass grad loss_fn bs opt_update get_params (i, s)),
      log ++ map (fun n => (i + Z.of_nat n)%Z) (seq 1 (length bs)))).
Proof.
  unfold epoch_pass. revert i s log; induction bs as [|b bs IH]; intros i s log.
  - simpl. now rewrite app_nil_r.
  - cbn [fold_left fst snd length].
    rewrite update_recording, IH. f_equal. f_equal.
    rewrite <- app_assoc. f_equal.
    cbn [seq map app]. f_equal.
    rewrite <- (seq_shift (length bs) 1), map_map.
    apply map_ext; intros n; lia.
Qed.

Variable opt_init : Params -> OptState.

Lemma state_after_steps (params : Params) (k : nat) :
  fst (state_after grad params loss_fn batches opt_init opt_update
         get_params k)
  = Z.of_nat (k * length batches).
Proof.
  unfold state_after. induction k as [|k IH]; [reflexivity|].
  rewrite Nat.iter_succ, (surjective_pairing (Nat.iter k _ _)).
  rewrite epoch_pass_steps, IH. lia.
Qed.

(** After [k] epochs the recording optimizer holds the state of the optimizer
    itself, and its record is [1, 2, ..., k * B]. *)
Lemma state_after_recording (params : Params) (k : nat) :
  state_after grad params loss_fn batches (recording_init opt_init)
    (recording_update opt_update) (recording_get_params get_params) k
  = (fst (state_after grad params loss_fn batches opt_init opt_update
            get_params k),
     (snd (state_after grad params loss_fn batches opt_init opt_update
             get_params k),
      map Z.of_nat (seq 1 (k * length batches)))).
Proof.
  induction k as [|k IH]; [reflexivity|].
  unfold state_after in *. rewrite !Nat.iter_succ, IH.
  rewrite epoch_pass_recording.
  rewrite <- surjective_pairing.
  f_equal. f_equal.
  pose proof (state_after_steps params k) as Hk.
  unfold state_after in Hk. rewrite Hk.
  replace (S k * length batches)%nat
    with (k * length batches + length batches)%nat by lia.
  rewrite seq_app, map_app. f_equal.
  rewrite (Nat.add_comm 1 (k * length batches)).
  symmetry; apply (map_of_nat_seq_shift (k * length batches) 1).
Qed.

Lemma reported_loss_recording (params : Params)
  (b_last : Batching.batch_dict Row Lbl) (e : nat) :
  reported_loss grad np_float params loss_fn batches (recording_init opt_init)
    (recording_update opt_update) (recording_get_params get_params) b_last e
  = reported_loss grad np_float params loss_fn batches opt_init opt_update
      get_params b_last e.
Proof.
  unfold reported_loss. now rewrite state_after_recording.
Qed.

(** Recording the indices changes nothing of what [sgd_jax] returns and
    prints. *)
Lemma recording_transparent (params : Params) (max_epochs : Z) :
  sgd_jax int_tenth grad np_float params loss_fn batches max_epochs
    (recording_init opt_init) (recording_update opt_update)
    (recording_get_params get_params)
  = sgd_jax int_tenth grad np_float params loss_fn batches max_epochs
      opt_init opt_update get_params.
Proof.
  unfold sgd_jax.
  destruct (nil_or_last batches) as [Hb|(front & b_last & Hb)].
  - destruct (Z.le_gt_cases max_epochs 0) as [HE|HE].
    + unfold sgd_jax_locals. rewrite (range_nonpos HE). reflexivity.
    + rewrite !jax_empty_stream_fails by (assumption || lia). reflexivity.
  - erewrite !sgd_jax_locals_nonempty by exact Hb.
    cbn [bind jax_params jax_loss_history jax_printed].
    rewrite state_after_recording. cbn [snd].
    unfold progress_lines.
    rewrite (map_ext _ _ (reported_loss_recording params b_last)).
    do 2 f_equal.
    apply map_ext; intros e. now rewrite reported_loss_recording.
Qed.

End Recording.

End Facts.

End TrainingFacts.

(** ** The training loops against the specification *)

Section TrainingProperties.

Variables Row Lbl Params Scalar Loss Float : Type.
Variable sub : Params -> Params -> Params.
Variable scale : Scalar -> Params -> Params.
Variable zero_loss : Loss.
Variable add_loss : Loss -> Loss -> Loss.
Variable int_tenth : Z -> Z.
Variable grad :
  (Params -> Training.Batch Row Lbl -> Loss) ->
  Params -> Training.Batch Row Lbl -> Params.
Variable np_float : Loss -> Float.

Variable params : Params.
Variable loss_fn : Params -> Training.Batch Row Lbl -> Loss.
Variable batches : Batching.batch_stream Row Lbl.
Variable max_epochs : Z.

Import Training TrainingFacts.

Lemma nth_error_seq0 (k e : nat) :
  (e < k)%nat -> nth_error (seq 0 k) e = Some e.
Proof.
  intros He.
  rewrite (nth_error_nth' _ 0%nat) by now rewrite length_seq.
  now rewrite seq_nth.
Qed.

(** C2. In a run of [sgd_jax] with [max_epochs >= 1] over a stream that ends
    with the batch [b_last], the run returns, the loss history has one entry
    per epoch, and the entry of epoch [e] is the loss function at the
    parameters extracted from the optimizer state after that epoch, on
    [b_last] alone; the returned parameters are those extracted after the
    last epoch. *)
Theorem loss_history_reports_last_batch (OptState : Type)
  (opt_init : Params -> OptState)
  (opt_update : Z -> Params -> OptState -> OptState)
  (get_params : OptState -> Params)
  (front : list (Batching.batch_dict Row Lbl))
  (b_last : Batching.batch_dict Row Lbl) :
  (1 <= max_epochs)%Z ->
  batches = front ++ [b_last] ->
  let after := state_after grad params loss_fn batches opt_init opt_update
                 get_params in
  exists loss_history printed,
    sgd_jax int_tenth grad np_float params loss_fn batches max_epochs
      opt_init opt_update get_params
    = inr ((get_params (snd (after (Z.to_nat max_epochs))), loss_history),
           printed) /\
    length loss_history = Z.to_nat max_epochs /\
    forall e : nat, (e < Z.to_nat max_epochs)%nat ->
      nth_error loss_history e
      = Some (np_float
                (loss_fn (get_params (snd (after (S e)))) (as_tuple b_last))).
Proof.
  intros HE Hb after. unfold sgd_jax.
  erewrite sgd_jax_locals_nonempty by exact Hb.
  cbn [bind ret jax_params jax_loss_history jax_printed].
  destruct (Z.to_nat max_epochs) as [|k] eqn:Ek; [lia|].
  eexists; eexists; split; [reflexivity|]. split.
  - now rewrite length_map, length_seq.
  - intros e He.
    erewrite map_nth_error by (apply nth_error_seq0; exact He).
    reflexivity.
Qed.

(** The same reporting policy in [sgd]: over a stream that ends with
    [b_last], the line printed for an epoch carries the loss at the
    parameters that epoch ends with, on [b_last] alone. *)
Lemma sgd_prints_last_batch_loss
  (grad_loss_fn : Params -> Training.Batch Row Lbl -> Params) (lr : Scalar)
  (front : list (Batching.batch_dict Row Lbl))
  (b_last : Batching.batch_dict Row Lbl) :
  batches = front ++ [b_last] ->
  let after := fun e => Nat.iter e (sgd_pass sub scale grad_loss_fn batches lr)
                          params in
  sgd sub scale zero_loss add_loss int_tenth params loss_fn grad_loss_fn
    batches max_epochs lr
  = inr (Tuple1 (after (Z.to_nat max_epochs)),
         progress_lines (Z.max 1 (int_tenth max_epochs))
           (fun e => loss_fn (after (S e)) (as_tuple b_last))
           (Z.to_nat max_epochs)).
Proof.
  intros Hb after. unfold sgd. rewrite (range_to_nat max_epochs).
  destruct (sgd_epochs_printed sub scale zero_loss add_loss loss_fn
              grad_loss_fn lr front b_last
              (Z.max 1 (int_tenth max_epochs)) params
              (Z.to_nat max_epochs) Hb) as (bl & Hrun).
  rewrite Hrun. reflexivity.
Qed.

(** C5. With [max_epochs = 0], [sgd_jax] returns the initial parameters and
    an empty loss history, and prints nothing; [sgd] returns the initial
    parameters. *)
Theorem zero_epochs_returns_initial (OptState : Type)
  (opt_init : Params -> OptState)
  (opt_update : Z -> Params -> OptState -> OptState)
  (get_params : OptState -> Params)
  (grad_loss_fn : Params -> Training.Batch Row Lbl -> Params) (lr : Scalar) :
  sgd_jax int_tenth grad np_float params loss_fn batches 0 opt_init
    opt_update get_params
  = inr ((params, []), [])
  /\
  sgd sub scale zero_loss add_loss int_tenth params loss_fn grad_loss_fn
    batches 0 lr
  = inr (Tuple1 params, []).
Proof. split; reflexivity. Qed.

(** C10. Over a stream with no batch and with [max_epochs >= 1], neither loop
    returns: in its first epoch [sgd_jax] reads [batch] and [sgd] reads
    [batch_loss], names that no iteration bound, and each raises
    [UnboundLocalError]. *)
Theorem empty_stream_raises (OptState : Type)
  (opt_init : Params -> OptState)
  (opt_update : Z -> Params -> OptState -> OptState)
  (get_params : OptState -> Params)
  (grad_loss_fn : Params -> Training.Batch Row Lbl -> Params) (lr : Scalar) :
  (1 <= max_epochs)%Z ->
  sgd_jax int_tenth grad np_float params loss_fn [] max_epochs opt_init
    opt_update get_params
  = inl (UnboundLocalError "batch")
  /\
  sgd sub scale zero_loss add_loss int_tenth params loss_fn grad_loss_fn
    [] max_epochs lr
  = inl (UnboundLocalError "batch_loss").
Proof.
  intros HE. split.
  - unfold sgd_jax. now rewrite jax_empty_stream_fails.
  - now apply sgd_empty_stream_fails.
Qed.

(** C3. When [sgd] is given the gradient that [sgd_jax] computes, [sgd_jax]
    with [optimizers.sgd] at the constant rate [lr] and [sgd] at the rate
    [lr] return the same parameter vector, or neither returns. When the
    stream has a batch, or there is no epoch to run, they return, and the
    vector is the one obtained by iterating [params - lr * grad] over the
    batches in their order, once per epoch. *)
Theorem sgd_jax_plain_matches_sgd
  (grad_loss_fn : Params -> Training.Batch Row Lbl -> Params) (lr : Scalar) :
  (forall p b, grad loss_fn p b = grad_loss_fn p b) ->
  final_params_of_sgd_jax
    (sgd_jax int_tenth grad np_float params loss_fn batches max_epochs
       (@optimizers_sgd_init Params)
       (optimizers_sgd_update sub scale (optimizers_constant lr))
       (@optimizers_sgd_get_params Params))
  = final_params_of_sgd
      (sgd sub scale zero_loss add_loss int_tenth params loss_fn grad_loss_fn
         batches max_epochs lr)
  /\
  (batches <> [] \/ (max_epochs <= 0)%Z ->
   final_params_of_sgd
     (sgd sub scale zero_loss add_loss int_tenth params loss_fn grad_loss_fn
        batches max_epochs lr)
   = Some (Nat.iter (Z.to_nat max_epochs)
             (sgd_pass sub scale grad_loss_fn batches lr) params)).
Proof.
  intros Hg.
  destruct (Z.le_gt_cases max_epochs 0) as [HE|HE].
  - unfold sgd_jax, sgd_jax_locals, sgd. rewrite (range_nonpos HE).
    replace (Z.to_nat max_epochs) with 0%nat by lia.
    split; [reflexivity|intros _; reflexivity].
  - destruct (nil_or_last batches) as [Hnil|(front & b_last & Hl)].
    + unfold sgd_jax.
      rewrite jax_empty_stream_fails, sgd_empty_stream_fails
        by (assumption || lia).
      split; [reflexivity|]. intros [Hb|]; [easy|lia].
    + assert (Hb : batches <> [])
        by (rewrite Hl; intros E; now apply app_eq_nil in E).
      unfold sgd_jax, sgd.
      erewrite sgd_jax_locals_nonempty by exact Hl.
      rewrite (range_to_nat max_epochs).
      destruct (sgd_epochs sub scale zero_loss add_loss loss_fn grad_loss_fn
                  lr (Z.max 1 (int_tenth max_epochs)) params
                  (Z.to_nat max_epochs) Hb) as (l & Hl' & Hp).
      rewrite Hl'.
      cbn [bind ret jax_params jax_loss_history jax_printed].
      destruct (Z.to_nat max_epochs) as [|k] eqn:Ek; [lia|].
      erewrite state_after_optimizers_sgd by exact Hg.
      unfold final_params_of_sgd_jax, final_params_of_sgd,
        optimizers_sgd_get_params.
      cbn [succeeded option_map fst item]. rewrite Hp.
      split; [reflexivity|intros _; reflexivity].
Qed.

(** C8. In a run of [sgd_jax] that returns (the stream has a batch, or there
    is no epoch to run), the indices that [opt_update] receives are, in the
    order of the calls, [1, 2, ..., E * B] for [E] epochs over [B] batches:
    the [k]-th call receives [k], across epoch boundaries. The calls are
    read from an optimizer that records the index of each call and returns
    and prints what the optimizer itself does. *)
Theorem step_index_is_global_counter (OptState : Type)
  (opt_init : Params -> OptState)
  (opt_update : Z -> Params -> OptState -> OptState)
  (get_params : OptState -> Params) :
  batches <> [] \/ (max_epochs <= 0)%Z ->
  exists l,
    sgd_jax_locals int_tenth grad np_float params loss_fn batches max_epochs
      (recording_init opt_init) (recording_update opt_update)
      (recording_get_params get_params)
    = inr l /\
    snd (jax_opt_state l)
    = map Z.of_nat (seq 1 (Z.to_nat max_epochs * length batches)) /\
    jax_total_steps l = Z.of_nat (Z.to_nat max_epochs * length batches) /\
    sgd_jax int_tenth grad np_float params loss_fn batches max_epochs
      (recording_init opt_init) (recording_update opt_update)
      (recording_get_params get_params)
    = sgd_jax int_tenth grad np_float params loss_fn batches max_epochs
        opt_init opt_update get_params.
Proof.
  intros Hrun.
  destruct (Z.le_gt_cases max_epochs 0) as [HE|HE].
  - unfold sgd_jax_locals. rewrite (range_nonpos HE).
    replace (Z.to_nat max_epochs) with 0%nat by lia.
    eexists; split; [reflexivity|].
    repeat split. apply recording_transparent.
  - destruct Hrun as [Hb|]; [|lia].
    destruct (nil_or_last batches) as [|(front & b_last & Hl)]; [easy|].
    erewrite sgd_jax_locals_nonempty by exact Hl.
    eexists; split; [reflexivity|].
    cbn [jax_opt_state jax_total_steps].
    rewrite state_after_recording. cbn [fst snd].
    repeat split.
    + apply state_after_steps.
    + apply recording_transparent.
Qed.

End TrainingProperties.

Lemma loss_history_reports_last_batch_witness :
  exists loss_history printed,
    Training.sgd_jax Demo.int_tenth Demo.grad Demo.np_float 5%Z Demo.loss_fn
      Demo.batches 2 Demo.opt_init Demo.opt_update Demo.get_params
    = inr ((Demo.get_params
              (snd (Training.state_after Demo.grad 5%Z Demo.loss_fn
                      Demo.batches Demo.opt_init Demo.opt_update
                      Demo.get_params (Z.to_nat 2))),
            loss_history), printed) /\
    length loss_history = Z.to_nat 2 /\
    forall e : nat, (e < Z.to_nat 2)%nat ->
      nth_error loss_history e
      = Some (Demo.np_float
                (Demo.loss_fn
                   (Demo.get_params
                      (snd (Training.state_after Demo.grad 5%Z Demo.loss_fn
                              Demo.batches Demo.opt_init Demo.opt_update
                              Demo.get_params (S e))))
                   (Training.as_tuple (Batching.BatchDict [3]%Z [1]%Z)))).
Proof.
  apply (@loss_history_reports_last_batch Z Z Z Z Z Demo.int_tenth Demo.grad
           Demo.np_float 5%Z Demo.loss_fn Demo.batches 2 (Z * Z)%type
           Demo.opt_init Demo.opt_update Demo.get_params
           [Batching.BatchDict [1; 2]%Z [0; 1]%Z]
           (Batching.BatchDict [3]%Z [1]%Z));
    [lia | reflexivity].
Defined.

Lemma empty_stream_raises_witness :
  Training.sgd_jax Demo.int_tenth Demo.grad Demo.np_float 5%Z Demo.loss_fn
    [] 1 Demo.opt_init Demo.opt_update Demo.get_params
  = inl (UnboundLocalError "batch")
  /\
  Training.sgd Z.sub Z.mul 0%Z Z.add Demo.int_tenth 5%Z Demo.loss_fn
    (Demo.grad Demo.loss_fn) [] 1 3%Z
  = inl (UnboundLocalError "batch_loss").
Proof.
  apply (@empty_stream_raises Z Z Z Z Z Z Z.sub Z.mul 0%Z Z.add
           Demo.int_tenth Demo.grad Demo.np_float 5%Z Demo.loss_fn 1
           (Z * Z)%type Demo.opt_init Demo.opt_update Demo.get_params
           (Demo.grad Demo.loss_fn) 3%Z).
  lia.
Defined.

Lemma sgd_jax_plain_matches_sgd_witness :
  Training.final_params_of_sgd_jax
    (Training.sgd_jax Demo.int_tenth Demo.grad Demo.np_float 5%Z Demo.loss_fn
       Demo.batches 2 (@Training.optimizers_sgd_init Z)
       (Training.optimizers_sgd_update Z.sub Z.mul
          (Training.optimizers_constant 3%Z))
       (@Training.optimizers_sgd_get_params Z))
  = Training.final_params_of_sgd
      (Training.sgd Z.sub Z.mul 0%Z Z.add Demo.int_tenth 5%Z Demo.loss_fn
         (Demo.grad Demo.loss_fn) Demo.batches 2 3%Z)
  /\
  (Demo.batches <> [] \/ (2 <= 0)%Z ->
   Training.final_params_of_sgd
     (Training.sgd Z.sub Z.mul 0%Z Z.add Demo.int_tenth 5%Z Demo.loss_fn
        (Demo.grad Demo.loss_fn) Demo.batches 2 3%Z)
   = Some (Nat.iter (Z.to_nat 2)
             (Training.sgd_pass Z.sub Z.mul (Demo.grad Demo.loss_fn)
                Demo.batches 3%Z) 5%Z)).
Proof.
  apply (@sgd_jax_plain_matches_sgd Z Z Z Z Z Z Z.sub Z.mul 0%Z Z.add
           Demo.int_tenth Demo.grad Demo.np_float 5%Z Demo.loss_fn
           Demo.batches 2 (Demo.grad Demo.loss_fn) 3%Z).
  intros p b; reflexivity.
Defined.

Lemma step_index_is_global_counter_witness :
  exists l,
    Training.sgd_jax_locals Demo.int_tenth Demo.grad Demo.np_float 5%Z
      Demo.loss_fn Demo.batches 2
      (Training.recording_init Demo.opt_init)
      (Training.recording_update Demo.opt_update)
      (Training.recording_get_params Demo.get_params)
    = inr l /\
    snd (Training.jax_opt_state l)
    = map Z.of_nat (seq 1 (Z.to_nat 2 * length Demo.batches)) /\
    Training.jax_total_steps l
    = Z.of_nat (Z.to_nat 2 * length Demo.batches) /\
    Training.sgd_jax Demo.int_tenth Demo.grad Demo.np_float 5%Z Demo.loss_fn
      Demo.batches 2
      (Training.recording_init Demo.opt_init)
      (Training.recording_update Demo.opt_update)
      (Training.recording_get_params Demo.get_params)
    = Training.sgd_jax Demo.int_tenth Demo.grad Demo.np_float 5%Z
        Demo.loss_fn Demo.batches 2 Demo.opt_init Demo.opt_update
        Demo.get_params.
Proof.
  apply (@step_index_is_global_counter Z Z Z Z Z Demo.int_tenth Demo.grad
           Demo.np_float 5%Z Demo.loss_fn Demo.batches 2 (Z * Z)%type
           Demo.opt_init Demo.opt_update Demo.get_params).
  left; discriminate.
Defined.

(** ** The objective *)

Module ObjectiveFacts.

Import Objective.
Local Open Scope R_scope.

(** *** Closed forms *)

(** [logsumexp([0, a]) = log(1 + e^a)], whatever maximum is taken out. *)
Lemma logsumexp_pair (a : R) : logsumexp [0; a] = ln (1 + exp a).
Proof.
  unfold logsumexp. set (m := amax [0; a]). cbn [map sum_list fold_right].
  replace (exp (0 - m) + (exp (a - m) + 0)) with (exp (- m) * (1 + exp a)).
  - rewrite ln_mult, ln_exp.
    + lra.
    + apply exp_pos.
    + pose proof (exp_pos a); lra.
  - unfold Rminus. rewrite Rplus_0_l, exp_plus. ring.
Qed.

Lemma exp_half_inv (x : R) : exp (x / 2) * exp (- (x / 2)) = 1.
Proof. rewrite <- exp_plus, Rplus_opp_r. apply exp_0. Qed.

(** The tanh form of the sigmoid is the logistic function. *)
Lemma sigmoid_logistic (x : R) : sigmoid x = / (1 + exp (- x)).
Proof.
  unfold sigmoid, tanh, sinh, cosh.
  pose proof (exp_pos (x / 2)) as HE.
  pose proof (exp_pos (- (x / 2))) as HF.
  pose proof (exp_half_inv x) as HEF.
  replace (- x) with (- (x / 2) + - (x / 2)) by lra.
  rewrite exp_plus.
  set (E := exp (x / 2)) in *. set (F := exp (- (x / 2))) in *.
  assert (HE' : E = / F) by (apply Rmult_eq_reg_r with F; [|lra];
    rewrite HEF; field; lra).
  rewrite HE'. replace 0.5 with (/ 2) by lra.
  assert (0 < / F) by (apply Rinv_0_lt_compat; lra).
  field. repeat split; nra.
Qed.

Lemma sigmoid_complement (x : R) : 1 - sigmoid x = / (1 + exp x).
Proof.
  rewrite sigmoid_logistic, exp_Ropp.
  pose proof (exp_pos x). field. lra.
Qed.

Lemma sigmoid_pos (x : R) : 0 < sigmoid x.
Proof.
  rewrite sigmoid_logistic. apply Rinv_0_lt_compat.
  pose proof (exp_pos (- x)); lra.
Qed.

(** [log p1 = -logsumexp([0, -a])] is the logarithm of [sigmoid(a)]. *)
Lemma logp1_is_ln_sigmoid (a : R) : - logsumexp [0; - a] = ln (sigmoid a).
Proof.
  rewrite logsumexp_pair, sigmoid_logistic, ln_Rinv; [reflexivity|].
  pose proof (exp_pos (- a)); lra.
Qed.

(** [log p0 = -logsumexp([0, a])] is the logarithm of [1 - sigmoid(a)]. *)
Lemma logp0_is_ln_complement (a : R) :
  - logsumexp [0; a] = ln (1 - sigmoid a).
Proof.
  rewrite logsumexp_pair, sigmoid_complement, ln_Rinv; [reflexivity|].
  pose proof (exp_pos a); lra.
Qed.

(** *** The two forms of the loss *)

(** The sum that [BCE_with_logits] takes, example by example. *)
Lemma BCE_logprobs (logits targets : vector) :
  vadd
    (vmul (map (fun row => - logsumexp row) (map (fun a => [0; - a]) logits))
       targets)
    (vmul (map (fun row => - logsumexp row) (map (fun a => [0; a]) logits))
       (map (fun t => 1 - t) targets))
  = map (fun p => logprob (fst p) (snd p)) (combine logits targets).
Proof.
  unfold vadd, vmul, map2.
  revert targets; induction logits as [|a logits IH]; intros [|t targets];
    try reflexivity.
  cbn [map combine fst snd]. now rewrite IH.
Qed.

Lemma naive_logprobs (a y : vector) :
  vadd (vmul y (map (fun a_n => ln (sigmoid a_n)) a))
    (vmul (map (fun y_n => 1 - y_n) y)
       (map (fun a_n => ln (1 - sigmoid a_n)) a))
  = map (fun p => logprob (fst p) (snd p)) (combine a y).
Proof.
  unfold vadd, vmul, map2.
  revert y; induction a as [|a_n a IH]; intros [|y_n y]; try reflexivity.
  cbn [map combine fst snd]. rewrite IH. f_equal.
  unfold logprob. rewrite logp1_is_ln_sigmoid, logp0_is_ln_complement. ring.
Qed.

(** On a batch with one label per row, the loss of the notebook is the naive
    loss. *)
Lemma NLL_is_naive (w : vector) (X : matrix) (y : vector) :
  length y = length X ->
  NLL w (X, y) = NLL_naive w (X, y).
Proof.
  intros Hlen. unfold NLL, NLL_naive, BCE_with_logits, mean.
  rewrite BCE_logprobs, naive_logprobs.
  rewrite !length_map, length_combine.
  unfold predict_logit, matvec. rewrite length_map, Hlen, Nat.min_id.
  unfold Rdiv. now rewrite Ropp_mult_distr_l.
Qed.

End ObjectiveFacts.

(** In exact arithmetic, for every weight vector and every batch that is not
    empty and has one label per row, the loss computed through [logsumexp]
    and the naive formula are equal, hence within [1e-6] of each other. The
    bound that the specification asks of the two floating-point values (C9)
    is about rounding and overflow, which this model leaves out. *)
Lemma NLL_matches_naive (w : Objective.vector) (X : Objective.matrix)
  (y : Objective.vector) :
  X <> [] -> length y = length X ->
  (Rabs (Objective.NLL w (X, y) - Objective.NLL_naive w (X, y)) < 1e-6)%R.
Proof.
  intros _ Hlen. rewrite (ObjectiveFacts.NLL_is_naive w X y Hlen).
  unfold Rminus. rewrite Rplus_opp_r, Rabs_R0. lra.
Qed.

Module GradientFacts.

Import Objective ObjectiveFacts.
Local Open Scope R_scope.

(** *** Lists as arrays *)

Lemma vdot_cons (a b : R) (u v : vector) :
  vdot (a :: u) (b :: v) = a * b + vdot u v.
Proof. reflexivity. Qed.

Lemma vdot_nil_l (v : vector) : vdot [] v = 0.
Proof. reflexivity. Qed.

Lemma vdot_nil_r (u : vector) : vdot u [] = 0.
Proof. destruct u; reflexivity. Qed.

Lemma nth_map_seq (f : nat -> R) (n j : nat) :
  (j < n)%nat -> nth j (map f (seq 0 n)) 0 = f j.
Proof.
  intros Hj.
  rewrite (nth_indep _ 0 (f 0%nat)) by now rewrite length_map, length_seq.
  now rewrite map_nth, seq_nth.
Qed.

(** Row [i] of [diag v] times a column picks entry [i] of both. *)
Lemma vdot_diag_row (x : R) (i : nat) (c : vector) (s : nat) :
  vdot (map (fun k => if Nat.eqb i k then x else 0) (seq s (length c))) c
  = if (Nat.leb s i && Nat.ltb i (s + length c))%bool
    then x * nth (i - s) c 0 else 0.
Proof.
  revert s; induction c as [|a c IH]; intros s.
  - cbn [length seq map]. rewrite vdot_nil_l.
    destruct (Nat.leb_spec s i), (Nat.ltb_spec i (s + 0)); simpl;
      try reflexivity; lia.
  - cbn [length seq map]. rewrite vdot_cons, IH.
    destruct (Nat.eqb_spec i s) as [->|Hne].
    + rewrite Nat.sub_diag. cbn [nth].
      destruct (Nat.leb_spec (S s) s); [lia|].
      destruct (Nat.leb_spec s s); [|lia].
      destruct (Nat.ltb_spec s (s + S (length c))); [|lia].
      simpl. ring.
    + destruct (Nat.leb_spec (S s) i), (Nat.ltb_spec i (S s + length c)),
        (Nat.leb_spec s i), (Nat.ltb_spec i (s + S (length c)));
        simpl; try lia; try ring.
      replace (i - s)%nat with (S (i - S s)) by lia. cbn [nth]. ring.
Qed.

(** A sum over the indices of two arrays of one length is their dot
    product. *)
Lemma sum_over_indices (v c : vector) :
  length v = length c ->
  sum_list (map (fun i => nth i v 0 * nth i c 0) (seq 0 (length v)))
  = vdot c v.
Proof.
  revert c; induction v as [|x v IH]; intros [|a c] Hlen;
    try discriminate; [reflexivity|].
  cbn [length seq map sum_list fold_right nth].
  rewrite <- seq_shift, map_map. cbn [nth].
  rewrite vdot_cons.
  change (fold_right Rplus 0
            (map (fun i => nth i v 0 * nth i c 0) (seq 0 (length v))))
    with (sum_list (map (fun i => nth i v 0 * nth i c 0) (seq 0 (length v)))).
  rewrite IH by (simpl in Hlen; lia). ring.
Qed.

Lemma length_column (j : nat) (A : matrix) : length (column j A) = length A.
Proof. apply length_map. Qed.

Lemma length_map2 (f : R -> R -> R) (a b : vector) :
  length (map2 f a b) = Nat.min (length a) (length b).
Proof. unfold map2. now rewrite length_map, length_combine. Qed.

Lemma column_matmul (A B : matrix) (j : nat) :
  (j < ncols B)%nat ->
  column j (matmul A B) = map (fun row => vdot row (column j B)) A.
Proof.
  intros Hj. unfold column at 1, matmul. rewrite map_map.
  apply map_ext; intros row.
  now rewrite (nth_map_seq (fun j' => vdot row (column j' B))).
Qed.

Lemma ncols_matmul (A B : matrix) : A <> [] -> ncols (matmul A B) = ncols B.
Proof.
  destruct A as [|row A]; [easy|]. intros _.
  unfold ncols, matmul. cbn [map hd]. now rewrite length_map, length_seq.
Qed.

Lemma diag_nonempty (v : vector) : v <> [] -> diag v <> [].
Proof. destruct v; [easy|]. intros _. discriminate. Qed.

(** Column [j] of [diag(v) . X], summed, is the dot product of column [j] of
    [X] with [v]. *)
Lemma sum_column_diag (v : vector) (X : matrix) (j : nat) :
  length v = length X -> (j < ncols X)%nat ->
  sum_list (column j (matmul (diag v) X)) = vdot (column j X) v.
Proof.
  intros Hlen Hj. rewrite column_matmul by exact Hj.
  unfold diag. rewrite map_map.
  rewrite <- (sum_over_indices v (column j X))
    by now rewrite length_column.
  f_equal. apply map_ext_in; intros i Hi. apply in_seq in Hi.
  replace (length v) with (length (column j X)) at 1
    by now rewrite length_column.
  rewrite vdot_diag_row, length_column, <- Hlen.
  destruct (Nat.leb_spec 0 i), (Nat.ltb_spec i (0 + length v));
    simpl; try lia.
  now rewrite Nat.sub_0_r.
Qed.

(** The errors [sigmoid(X w) - y] of a batch with one label per row. *)
Lemma length_errors (w : vector) (X : matrix) (y : vector) :
  length y = length X ->
  length (vsub (predict_prob w X) y) = length X.
Proof.
  intros Hlen. unfold vsub, predict_prob, predict_logit, matvec.
  rewrite length_map2, !length_map, Hlen. apply Nat.min_id.
Qed.

(** Coordinate [j] of [NLL_grad]. *)
Lemma NLL_grad_coord (w : vector) (X : matrix) (y : vector) (j : nat) :
  X <> [] -> length y = length X -> (j < ncols X)%nat ->
  nth j (NLL_grad w (X, y)) 0
  = vdot (column j X) (vsub (predict_prob w X) y) / INR (length X).
Proof.
  intros HX Hlen Hj. unfold NLL_grad, sum_axis0.
  assert (Hv : vsub (predict_prob w X) y <> []).
  { intros E. apply (f_equal (@length R)) in E.
    rewrite length_errors in E by exact Hlen.
    destruct X; [easy|discriminate]. }
  rewrite ncols_matmul by now apply diag_nonempty.
  rewrite map_map.
  rewrite (nth_map_seq
             (fun j' => sum_list
                          (column j' (matmul (diag (vsub (predict_prob w X) y))
                                        X)) / INR (length X))) by exact Hj.
  now rewrite sum_column_diag by (now rewrite ?length_errors).
Qed.

(** [NLL_grad] is the formula [(1/N) * X^T . (sigmoid(X w) - y)]. *)
Lemma NLL_grad_formula (w : vector) (X : matrix) (y : vector) :
  X <> [] -> length y = length X ->
  NLL_grad w (X, y) = gradient_formula w (X, y).
Proof.
  intros HX Hlen. unfold NLL_grad, gradient_formula, sum_axis0.
  assert (Hv : vsub (predict_prob w X) y <> []).
  { intros E. apply (f_equal (@length R)) in E.
    rewrite length_errors in E by exact Hlen.
    destruct X; [easy|discriminate]. }
  rewrite ncols_matmul by now apply diag_nonempty.
  unfold transpose, matvec at 1. rewrite !map_map.
  apply map_ext_in; intros j Hj. apply in_seq in Hj.
  rewrite sum_column_diag by (rewrite ?length_errors; auto; lia).
  unfold predict_prob, predict_logit. unfold Rdiv. ring.
Qed.

(** *** Derivatives *)

Lemma derivable_pt_lim_ext (f g : R -> R) (x l : R) :
  (forall t, f t = g t) -> derivable_pt_lim f x l -> derivable_pt_lim g x l.
Proof.
  intros Hfg Hf eps Heps. destruct (Hf eps Heps) as [delta Hd].
  exists delta; intros h Hh Hlt. rewrite <- !Hfg. now apply Hd.
Qed.

Lemma derivable_pt_lim_value (f : R -> R) (x l l' : R) :
  l = l' -> derivable_pt_lim f x l -> derivable_pt_lim f x l'.
Proof. now intros ->. Qed.

(** The softplus [log(1 + e^a)] has derivative [1 - 1/(1 + e^a)]. *)
Lemma derivable_pt_lim_softplus (a : R) :
  derivable_pt_lim (fun a => ln (1 + exp a)) a (1 - / (1 + exp a)).
Proof.
  pose proof (exp_pos a) as Hpos.
  apply derivable_pt_lim_ext with (f := comp ln (fct_cte 1 + exp)%F);
    [reflexivity|].
  apply derivable_pt_lim_value with (l := / (1 + exp a) * (0 + exp a));
    [field; lra|].
  apply derivable_pt_lim_comp.
  - apply derivable_pt_lim_plus;
      [apply derivable_pt_lim_const|apply derivable_pt_lim_exp].
  - apply derivable_pt_lim_ln. unfold plus_fct, fct_cte. lra.
Qed.

(** The log probability of an example, as a function of its logit, has
    derivative [t - sigmoid(a)]. *)
Lemma derivable_pt_lim_logprob (t a : R) :
  derivable_pt_lim (fun a => logprob a t) a (t - sigmoid a).
Proof.
  apply derivable_pt_lim_ext
    with (f := (mult_real_fct (- t)
                  (comp (fun a => ln (1 + exp a)) (- id))
                + mult_real_fct (- (1 - t)) (fun a => ln (1 + exp a)))%F).
  { intros b. unfold logprob, plus_fct, mult_real_fct, comp, opp_fct, id.
    rewrite !logsumexp_pair. ring. }
  apply derivable_pt_lim_value
    with (l := - t * ((1 - / (1 + exp (- a))) * - 1)
               + - (1 - t) * (1 - / (1 + exp a))).
  { rewrite <- sigmoid_logistic.
    pose proof (sigmoid_complement a) as Hc. rewrite <- Hc. ring. }
  apply derivable_pt_lim_plus; apply derivable_pt_lim_scal.
  - apply derivable_pt_lim_comp.
    + apply derivable_pt_lim_opp, derivable_pt_lim_id.
    + apply derivable_pt_lim_softplus.
  - apply derivable_pt_lim_softplus.
Qed.

(** The logit of a row is affine in every coordinate of the weights. *)
Lemma vdot_set_coord (row w : vector) (j : nat) (t : R) :
  (j < length w)%nat ->
  vdot row (set_coord w j t) = vdot row w + nth j row 0 * (t - nth j w 0).
Proof.
  revert row j; induction w as [|x w IH]; intros row j Hj;
    [simpl in Hj; lia|].
  destruct row as [|r row].
  - rewrite !vdot_nil_l. destruct j; simpl; ring.
  - destruct j as [|j]; cbn [set_coord nth].
    + rewrite !vdot_cons. ring.
    + rewrite !vdot_cons, IH by (simpl in Hj; lia). ring.
Qed.

(** The log probability of one example, as a function of coordinate [j] of
    the weights. *)
Lemma derivable_pt_lim_example (row w : vector) (t : R) (j : nat) :
  (j < length w)%nat ->
  derivable_pt_lim (fun u => logprob (vdot row (set_coord w j u)) t)
    (nth j w 0) ((t - sigmoid (vdot row w)) * nth j row 0).
Proof.
  intros Hj.
  apply derivable_pt_lim_ext
    with (f := comp (fun a => logprob a t)
                 (fct_cte (vdot row w)
                  + mult_real_fct (nth j row 0) (id - fct_cte (nth j w 0)))%F).
  { intros u. unfold comp, plus_fct, mult_real_fct, minus_fct, fct_cte, id.
    now rewrite vdot_set_coord. }
  apply derivable_pt_lim_value
    with (l := (t - sigmoid (vdot row w)) * (0 + nth j row 0 * (1 - 0)));
    [ring|].
  apply derivable_pt_lim_comp.
  - apply derivable_pt_lim_plus; [apply derivable_pt_lim_const|].
    apply derivable_pt_lim_scal, derivable_pt_lim_minus;
      [apply derivable_pt_lim_id|apply derivable_pt_lim_const].
  - apply derivable_pt_lim_value
      with (l := t - sigmoid (vdot row w
                              + nth j row 0 * (nth j w 0 - nth j w 0))).
    { unfold Rminus at 2. rewrite Rplus_opp_r, Rmult_0_r, Rplus_0_r.
      reflexivity. }
    apply (derivable_pt_lim_logprob t
             (vdot row w + nth j row 0 * (nth j w 0 - nth j w 0))).
Qed.

(** The sum of the log probabilities of the examples. *)
Lemma derivable_pt_lim_examples (ps : list (vector * R)) (w : vector)
  (j : nat) :
  (j < length w)%nat ->
  derivable_pt_lim
    (fun u =>
       sum_list
         (map (fun p => logprob (vdot (fst p) (set_coord w j u)) (snd p)) ps))
    (nth j w 0)
    (sum_list
       (map (fun p => (snd p - sigmoid (vdot (fst p) w)) * nth j (fst p) 0)
          ps)).
Proof.
  intros Hj. induction ps as [|[row t] ps IH].
  - cbn [map sum_list fold_right].
    apply derivable_pt_lim_ext with (f := fct_cte 0); [reflexivity|].
    apply derivable_pt_lim_const.
  - cbn [map sum_list fold_right fst snd].
    apply derivable_pt_lim_ext
      with (f := ((fun u => logprob (vdot row (set_coord w j u)) t)
                  + (fun u =>
                       sum_list
                         (map (fun p =>
                                 logprob (vdot (fst p) (set_coord w j u))
                                   (snd p)) ps)))%F);
      [reflexivity|].
    apply derivable_pt_lim_plus; [now apply derivable_pt_lim_example|exact IH].
Qed.

(** *** The loss as a sum over the examples *)

Lemma sum_list_opp {A} (f g : A -> R) (l : list A) :
  (forall a, g a = - f a) ->
  sum_list (map g l) = - sum_list (map f l).
Proof.
  intros Hfg. induction l as [|a l IH].
  - simpl. ring.
  - change (sum_list (map g (a :: l))) with (g a + sum_list (map g l)).
    change (sum_list (map f (a :: l))) with (f a + sum_list (map f l)).
    rewrite IH, Hfg. ring.
Qed.

Lemma combine_map_l {A B C} (f : A -> B) (l : list A) (l' : list C) :
  combine (map f l) l' = map (fun p => (f (fst p), snd p)) (combine l l').
Proof.
  revert l'; induction l as [|a l IH]; intros [|c l']; try reflexivity.
  cbn [map combine fst snd]. now rewrite IH.
Qed.

Lemma NLL_sum (w : vector) (X : matrix) (y : vector) :
  NLL w (X, y)
  = - sum_list
        (map (fun p => logprob (vdot (fst p) w) (snd p)) (combine X y))
    / INR (length X).
Proof.
  unfold NLL, BCE_with_logits. rewrite BCE_logprobs.
  unfold predict_logit, matvec.
  now rewrite combine_map_l, map_map, length_map.
Qed.

Lemma errors_dot (w : vector) (X : matrix) (y : vector) (j : nat) :
  vdot (column j X) (vsub (predict_prob w X) y)
  = sum_list
      (map (fun p => nth j (fst p) 0 * (sigmoid (vdot (fst p) w) - snd p))
         (combine X y)).
Proof.
  revert y; induction X as [|row X IH]; intros y.
  - reflexivity.
  - destruct y as [|t y].
    + unfold vsub, map2. cbn [combine map]. now rewrite vdot_nil_r.
    + change (column j (row :: X)) with (nth j row 0 :: column j X).
      change (vsub (predict_prob w (row :: X)) (t :: y))
        with (sigmoid (vdot row w) - t :: vsub (predict_prob w X) y).
      rewrite vdot_cons, IH. reflexivity.
Qed.

(** Coordinate [j] of [NLL_grad] is the partial derivative of [NLL] in
    coordinate [j] of the weights. *)
Lemma NLL_grad_is_partial_derivative (D : nat) (w : vector) (X : matrix)
  (y : vector) (j : nat) :
  X <> [] -> well_shaped D (X, y) -> length w = D -> (j < D)%nat ->
  partial_derivative NLL w (X, y) j (nth j (NLL_grad w (X, y)) 0).
Proof.
  intros HX [Hlen Hrows] Hw Hj. unfold partial_derivative.
  assert (Hcols : ncols X = D).
  { destruct X as [|row X]; [easy|]. now inversion Hrows. }
  rewrite NLL_grad_coord by (auto; lia).
  apply derivable_pt_lim_ext
    with (f := mult_real_fct (- / INR (length X))
                 (fun u =>
                    sum_list
                      (map (fun p =>
                              logprob (vdot (fst p) (set_coord w j u)) (snd p))
                         (combine X y)))).
  { intros u. rewrite NLL_sum. unfold mult_real_fct, Rdiv.
    generalize (sum_list
                  (map (fun p =>
                          logprob (vdot (fst p) (set_coord w j u)) (snd p))
                     (combine X y))).
    intros s; ring. }
  apply derivable_pt_lim_value
    with (l := - / INR (length X)
               * sum_list
                   (map (fun p =>
                           (snd p - sigmoid (vdot (fst p) w))
                           * nth j (fst p) 0)
                      (combine X y))).
  { rewrite errors_dot. unfold Rdiv.
    rewrite (Rmult_comm _ (/ INR (length X))).
    rewrite <- Ropp_mult_distr_l, Ropp_mult_distr_r. f_equal.
    symmetry. apply sum_list_opp. intros p. unfold vector. ring. }
  apply derivable_pt_lim_scal, derivable_pt_lim_examples. lia.
Qed.

End GradientFacts.

(** In exact arithmetic, for every weight vector [w] of dimension [D] and
    every batch that is not empty, with rows of [D] features and one label
    per row, [NLL_grad] returns [(1/N) * X^T . (sigmoid(X w) - y)], and each
    of its coordinates is the partial derivative of [NLL] in that coordinate
    of the weights, so that it is within [1e-5] of any value that is this
    derivative. The agreement that the specification asks of the
    floating-point outputs of [NLL_grad] and of [jax.grad] (C4) is about
    rounding, which this model leaves out. *)
Lemma NLL_grad_agrees_with_derivative (D : nat) (w : Objective.vector)
  (X : Objective.matrix) (y : Objective.vector) :
  X <> [] -> Objective.well_shaped D (X, y) -> length w = D ->
  Objective.NLL_grad w (X, y) = Objective.gradient_formula w (X, y) /\
  forall j : nat, (j < D)%nat ->
    Objective.partial_derivative Objective.NLL w (X, y) j
      (nth j (Objective.NLL_grad w (X, y)) 0%R) /\
    forall g : R,
      Objective.partial_derivative Objective.NLL w (X, y) j g ->
      (Rabs (nth j (Objective.NLL_grad w (X, y)) 0 - g) < 1e-5)%R.
Proof.
  intros HX Hshape Hw. split.
  - destruct Hshape as [Hlen _].
    now apply GradientFacts.NLL_grad_formula.
  - intros j Hj.
    assert (Hd : Objective.partial_derivative Objective.NLL w (X, y) j
                   (nth j (Objective.NLL_grad w (X, y)) 0%R))
      by (apply GradientFacts.NLL_grad_is_partial_derivative with (D := D);
          assumption).
    split; [exact Hd|].
    intros g Hg.
    rewrite (uniqueness_limite _ _ _ _ Hd Hg).
    unfold Rminus. rewrite Rplus_opp_r, Rabs_R0. lra.
Qed.

Lemma NLL_grad_agrees_with_derivative_witness :
  Objective.NLL_grad [0; 0]%R ([[1; 2]]%R, [1]%R)
  = Objective.gradient_formula [0; 0]%R ([[1; 2]]%R, [1]%R) /\
  forall j : nat, (j < 2)%nat ->
    Objective.partial_derivative Objective.NLL [0; 0]%R ([[1; 2]]%R, [1]%R) j
      (nth j (Objective.NLL_grad [0; 0]%R ([[1; 2]]%R, [1]%R)) 0%R) /\
    forall g : R,
      Objective.partial_derivative Objective.NLL [0; 0]%R
        ([[1; 2]]%R, [1]%R) j g ->
      (Rabs (nth j (Objective.NLL_grad [0; 0]%R ([[1; 2]]%R, [1]%R)) 0 - g)
       < 1e-5)%R.
Proof.
  apply (@NLL_grad_agrees_with_derivative 2 [0; 0]%R [[1; 2]]%R [1]%R).
  - discriminate.
  - split; [reflexivity|]. repeat constructor.
  - reflexivity.
Defined.

Lemma NLL_matches_naive_witness :
  (Rabs (Objective.NLL [0; 0] ([[1; 2]], [1])
         - Objective.NLL_naive [0; 0] ([[1; 2]], [1])) < 1e-6)%R.
Proof.
  apply (@NLL_matches_naive [0; 0]%R [[1; 2]]%R [1]%R);
    [discriminate | reflexivity].
Defined.

(** * Further properties of the code *)

(** ** The batches of [make_batch_stream] *)

Module BatchShapes.

Import Batching BatchingFacts.

Section Shapes.

Variables Row Lbl : Type.

(** The sizes of the batches without [drop_remainder]: full batches, then
    what is left if anything is. *)
Lemma batch_iter_lengths (n : nat) :
  (0 < n)%nat ->
  forall fuel (input : list (example Row Lbl)),
    (length input < fuel)%nat ->
    map (@length _) (batch_iter fuel n false input)
    = repeat n (length input / n)
      ++ (if Nat.eqb (length input mod n) 0 then []
          else [length input mod n])%nat.
Proof.
  intros Hn; induction fuel as [|fuel IH]; intros input Hf; [lia|].
  cbn [batch_iter].
  destruct (firstn n input) as [|e es] eqn:E.
  - destruct input as [|a input]; [|destruct n; [lia|simpl in E; discriminate]].
    cbn [length]. rewrite Nat.Div0.div_0_l, Nat.Div0.mod_0_l. reflexivity.
  - cbn [andb map]. rewrite <- E.
    assert (Hlen : (1 <= length input)%nat)
      by (destruct input;
          [rewrite firstn_nil in E; discriminate|cbn [length]; lia]).
    rewrite length_firstn.
    destruct (Nat.le_gt_cases n (length input)) as [Hge|Hlt].
    + rewrite IH by (rewrite length_skipn; lia).
      rewrite length_skipn, Nat.min_l by lia.
      assert (Hd : (length input / n = S ((length input - n) / n))%nat).
      { replace (length input) with ((length input - n) + 1 * n)%nat at 1
          by lia.
        rewrite Nat.div_add by lia. lia. }
      assert (Hm : (length input mod n = (length input - n) mod n)%nat).
      { replace (length input) with ((length input - n) + 1 * n)%nat at 1
          by lia.
        now rewrite Nat.Div0.mod_add. }
      rewrite Hd, Hm. reflexivity.
    + rewrite Nat.min_r by lia.
      rewrite skipn_all2 by lia.
      rewrite Nat.div_small, Nat.mod_small by lia.
      destruct (Nat.eqb_spec (length input) 0) as [H0|_]; [lia|].
      destruct fuel; [reflexivity|].
      cbn [batch_iter]. rewrite firstn_nil. reflexivity.
Qed.

Lemma combine_stack (c : list (example Row Lbl)) :
  combine (bd_X (stack c)) (bd_y (stack c))
  = map (fun e => (ex_X e, ex_y e)) c.
Proof.
  induction c as [|e c IH]; [reflexivity|].
  cbn [stack bd_X bd_y map combine] in *. now rewrite IH.
Qed.

Lemma dataset_pairs (X : list Row) (y : list Lbl) :
  map (fun e => (ex_X e, ex_y e))
    (map (fun p => Example (fst p) (snd p)) (combine X y))
  = combine X y.
Proof.
  rewrite map_map. cbn [ex_X ex_y].
  rewrite <- (map_id (combine X y)) at 2.
  apply map_ext; intros [r l]; reflexivity.
Qed.

Lemma concat_combine_stack (chunks : list (list (example Row Lbl))) :
  concat (map (fun b => combine (bd_X b) (bd_y b))
            (map (@stack _ _) chunks))
  = map (fun e => (ex_X e, ex_y e)) (concat chunks).
Proof.
  induction chunks as [|c cs IH]; [reflexivity|].
  cbn [map concat]. now rewrite IH, combine_stack, map_app.
Qed.

(** The stream of [make_batch_stream] and its printed line, for features and
    labels of one length and a positive batch size. *)
Lemma make_batch_stream_shape (X : list Row) (y : list Lbl) (batch_size : Z) :
  length X = length y -> (0 < batch_size)%Z ->
  let n := Z.to_nat batch_size in
  exists stream,
    make_batch_stream X y batch_size
    = inr (stream,
           SplitMessage (Z.of_nat (length X))
             (Z.of_nat (length X) / batch_size) batch_size) /\
    map (fun b => length (bd_X b)) stream
    = repeat n (length X / n)
      ++ (if Nat.eqb (length X mod n) 0 then [] else [length X mod n])%nat /\
    Forall (fun b => length (bd_y b) = length (bd_X b)) stream /\
    concat (map (fun b => combine (bd_X b) (bd_y b)) stream) = combine X y.
Proof.
  intros Hlen Hbs n.
  unfold make_batch_stream, batch, from_tensor_slices.
  destruct (Nat.eqb_spec (length X) (length y)) as [_|Hne]; [|contradiction].
  unfold bind at 1.
  destruct (Z.leb_spec batch_size 0) as [Hle|_]; [lia|].
  unfold bind, ret. eexists; split; [reflexivity|].
  repeat split.
  - rewrite map_map.
    rewrite (map_ext _ (@length _))
      by (intros c; unfold stack; cbn [bd_X]; apply length_map).
    rewrite batch_iter_lengths by lia.
    now rewrite length_map, length_combine, <- Hlen, Nat.min_id.
  - apply Forall_map, Forall_forall. intros c _.
    unfold stack; cbn [bd_X bd_y]. now rewrite !length_map.
  - rewrite concat_combine_stack, batch_iter_concat by lia.
    apply dataset_pairs.
Qed.

(** The number of entries of the list of sizes. *)
Lemma length_sizes (n N : nat) :
  length (repeat n (N / n)
          ++ (if Nat.eqb (N mod n) 0 then [] else [N mod n])%nat)
  = (N / n + (if Nat.eqb (N mod n) 0 then 0 else 1))%nat.
Proof.
  rewrite length_app, repeat_length. now destruct (Nat.eqb (N mod n) 0).
Qed.

End Shapes.

End BatchShapes.

(** X1. For features and labels of one length and a positive batch size, the
    rows of the batches, put end to end in the order of the stream, are the
    feature rows, and their labels are the labels: nothing is left out,
    repeated or moved. *)
Theorem batch_stream_keeps_every_example (Row Lbl : Type) (X : list Row)
  (y : list Lbl) (batch_size : Z) :
  length X = length y -> (0 < batch_size)%Z ->
  exists stream msg,
    Batching.make_batch_stream X y batch_size = inr (stream, msg) /\
    concat (map (@Batching.bd_X _ _) stream) = X /\
    concat (map (@Batching.bd_y _ _) stream) = y.
Proof.
  intros Hlen Hbs.
  destruct (BatchingFacts.make_batch_stream_ok X y Hlen Hbs)
    as (stream & Hs & HX & Hy & _).
  exists stream; eexists; repeat split; eassumption.
Qed.

Lemma batch_stream_keeps_every_example_witness :
  exists stream msg,
    Batching.make_batch_stream [10; 11; 12; 13; 14]%nat [0; 1; 0; 1; 1]%nat 2
    = inr (stream, msg) /\
    concat (map (@Batching.bd_X _ _) stream) = [10; 11; 12; 13; 14]%nat /\
    concat (map (@Batching.bd_y _ _) stream) = [0; 1; 0; 1; 1]%nat.
Proof.
  apply batch_stream_keeps_every_example; [reflexivity|lia].
Defined.

(** X2. For [N] examples and a positive batch size [n], the batches have, in
    order, [n] rows each for [N / n] batches, followed by one batch of
    [N mod n] rows when [n] does not divide [N]. *)
Theorem batch_stream_sizes (Row Lbl : Type) (X : list Row) (y : list Lbl)
  (batch_size : Z) :
  length X = length y -> (0 < batch_size)%Z ->
  let n := Z.to_nat batch_size in
  exists stream msg,
    Batching.make_batch_stream X y batch_size = inr (stream, msg) /\
    map (fun b => length (Batching.bd_X b)) stream
    = repeat n (length X / n)
      ++ (if Nat.eqb (length X mod n) 0 then [] else [length X mod n])%nat.
Proof.
  intros Hlen Hbs n.
  destruct (BatchShapes.make_batch_stream_shape X y Hlen Hbs)
    as (stream & Hs & Hsizes & _).
  exists stream; eexists; split; [exact Hs|exact Hsizes].
Qed.

Lemma batch_stream_sizes_witness :
  exists stream msg,
    Batching.make_batch_stream [10; 11; 12; 13; 14]%nat [0; 1; 0; 1; 1]%nat 2
    = inr (stream, msg) /\
    map (fun b => length (Batching.bd_X b)) stream
    = repeat (Z.to_nat 2) (length [10; 11; 12; 13; 14]%nat / Z.to_nat 2)
      ++ (if Nat.eqb (length [10; 11; 12; 13; 14]%nat mod Z.to_nat 2) 0
          then [] else [length [10; 11; 12; 13; 14]%nat mod Z.to_nat 2])%nat.
Proof.
  apply (@batch_stream_sizes nat nat [10; 11; 12; 13; 14]%nat
           [0; 1; 0; 1; 1]%nat 2); [reflexivity|lia].
Defined.

(** X3. The number of batches that [make_batch_stream] prints,
    [floor(N / batch_size)], is the number of batches of the stream exactly
    when the batch size divides [N]; otherwise the stream has one batch
    more. *)
Theorem printed_batch_count_right_iff_divides (Row Lbl : Type)
  (X : list Row) (y : list Lbl) (batch_size : Z) :
  length X = length y -> (0 < batch_size)%Z ->
  exists stream msg,
    Batching.make_batch_stream X y batch_size = inr (stream, msg) /\
    (Batching.msg_nbatches msg = Z.of_nat (length stream)
     <-> (Z.of_nat (length X) mod batch_size = 0)%Z) /\
    ((Z.of_nat (length X) mod batch_size <> 0)%Z ->
     Z.of_nat (length stream) = (Batching.msg_nbatches msg + 1)%Z).
Proof.
  intros Hlen Hbs.
  destruct (BatchShapes.make_batch_stream_shape X y Hlen Hbs)
    as (stream & Hs & Hsizes & _).
  exists stream; eexists; split; [exact Hs|].
  cbn [Batching.msg_nbatches].
  apply (f_equal (@length nat)) in Hsizes.
  rewrite length_map, BatchShapes.length_sizes in Hsizes.
  set (n := Z.to_nat batch_size) in *.
  assert (Hn : batch_size = Z.of_nat n) by (subst n; lia).
  rewrite Hn, <- Nat2Z.inj_div, <- Nat2Z.inj_mod, Hsizes.
  destruct (Nat.eqb_spec (length X mod n) 0) as [H0|H0]; split;
    try split; intros; lia.
Qed.

Lemma printed_batch_count_right_iff_divides_witness :
  exists stream msg,
    Batching.make_batch_stream [10; 11; 12; 13; 14]%nat [0; 1; 0; 1; 1]%nat 2
    = inr (stream, msg) /\
    (Batching.msg_nbatches msg = Z.of_nat (length stream)
     <-> (Z.of_nat (length [10; 11; 12; 13; 14]%nat) mod 2 = 0)%Z) /\
    ((Z.of_nat (length [10; 11; 12; 13; 14]%nat) mod 2 <> 0)%Z ->
     Z.of_nat (length stream) = (Batching.msg_nbatches msg + 1)%Z).
Proof.
  apply (@printed_batch_count_right_iff_divides nat nat
           [10; 11; 12; 13; 14]%nat [0; 1; 0; 1; 1]%nat 2);
    [reflexivity|lia].
Defined.

(** X4. Every batch holds as many labels as rows, and the pairs of a row and
    its label, read batch after batch, are the pairs of the dataset in their
    order: batching never separates a row from its label. *)
Theorem batch_stream_keeps_labels_with_rows (Row Lbl : Type) (X : list Row)
  (y : list Lbl) (batch_size : Z) :
  length X = length y -> (0 < batch_size)%Z ->
  exists stream msg,
    Batching.make_batch_stream X y batch_size = inr (stream, msg) /\
    Forall (fun b => length (Batching.bd_y b) = length (Batching.bd_X b))
      stream /\
    concat (map (fun b => combine (Batching.bd_X b) (Batching.bd_y b)) stream)
    = combine X y.
Proof.
  intros Hlen Hbs.
  destruct (BatchShapes.make_batch_stream_shape X y Hlen Hbs)
    as (stream & Hs & _ & Hall & Hpairs).
  exists stream; eexists; repeat split; eassumption.
Qed.

Lemma batch_stream_keeps_labels_with_rows_witness :
  exists stream msg,
    Batching.make_batch_stream [10; 11; 12; 13; 14]%nat [0; 1; 0; 1; 1]%nat 2
    = inr (stream, msg) /\
    Forall (fun b => length (Batching.bd_y b) = length (Batching.bd_X b))
      stream /\
    concat (map (fun b => combine (Batching.bd_X b) (Batching.bd_y b)) stream)
    = combine [10; 11; 12; 13; 14]%nat [0; 1; 0; 1; 1]%nat.
Proof.
  apply batch_stream_keeps_labels_with_rows; [reflexivity|lia].
Defined.

(** ** The training loops *)

Module LoopFacts.

Import Training TrainingFacts.

(** Filtering after a map. *)
Lemma filter_map_comm {A B} (h : A -> B) (P : B -> bool) (l : list A) :
  filter P (map h l) = map h (filter (fun a => P (h a)) l).
Proof.
  induction l as [|a l IH]; [reflexivity|].
  cbn [map filter]. destruct (P (h a)); cbn [map]; now rewrite IH.
Qed.

Lemma combine_map_map {A B C} (f : A -> B) (g : A -> C) (l : list A) :
  combine (map f l) (map g l) = map (fun a => (f a, g a)) l.
Proof.
  induction l as [|a l IH]; [reflexivity|]. cbn [map combine]. now rewrite IH.
Qed.

(** The progress lines are the pairs of an epoch and its value whose epoch
    [print_every] divides. *)
Lemma progress_lines_filter {V} (print_every : Z) (value : nat -> V)
  (k : nat) :
  progress_lines print_every value k
  = filter (fun l => (fst l mod print_every =? 0)%Z)
      (combine (range (Z.of_nat k)) (map value (seq 0 k))).
Proof.
  unfold progress_lines. rewrite range_of_nat, combine_map_map.
  now rewrite filter_map_comm.
Qed.

Lemma progress_lines_map {V W} (f : V -> W) (print_every : Z)
  (value : nat -> V) (k : nat) :
  map (fun l => (fst l, f (snd l))) (progress_lines print_every value k)
  = progress_lines print_every (fun e => f (value e)) k.
Proof. unfold progress_lines. now rewrite map_map. Qed.

Lemma progress_lines_ext {V} (print_every : Z) (f g : nat -> V) (k : nat) :
  (forall e, f e = g e) ->
  progress_lines print_every f k = progress_lines print_every g k.
Proof.
  intros Hfg. unfold progress_lines. apply map_ext; intros e.
  now rewrite Hfg.
Qed.

End LoopFacts.

Section LoopProperties.

Variables Row Lbl Params Scalar Loss Float : Type.
Variable sub : Params -> Params -> Params.
Variable scale : Scalar -> Params -> Params.
Variable zero_loss : Loss.
Variable add_loss : Loss -> Loss -> Loss.
Variable int_tenth : Z -> Z.
Variable grad :
  (Params -> Training.Batch Row Lbl -> Loss) ->
  Params -> Training.Batch Row Lbl -> Params.
Variable np_float : Loss -> Float.

Import Training TrainingFacts LoopFacts.

(** What [sgd] returns, as an option, in every case. *)
Lemma final_params_of_sgd_cases (params : Params)
  (loss_fn : Params -> Batch Row Lbl -> Loss)
  (grad_loss_fn : Params -> Batch Row Lbl -> Params)
  (batches : Batching.batch_stream Row Lbl) (max_epochs : Z) (lr : Scalar) :
  final_params_of_sgd
    (sgd sub scale zero_loss add_loss int_tenth params loss_fn grad_loss_fn
       batches max_epochs lr)
  = if (max_epochs <=? 0)%Z then Some params
    else match batches with
         | [] => None
         | _ :: _ =>
             Some (Nat.iter (Z.to_nat max_epochs)
                     (sgd_pass sub scale grad_loss_fn batches lr) params)
         end.
Proof.
  destruct (Z.leb_spec max_epochs 0) as [HE|HE].
  - unfold sgd. now rewrite (range_nonpos HE).
  - destruct (nil_or_last batches) as [Hnil|(front & b_last & Hl)].
    + rewrite sgd_empty_stream_fails by (assumption || lia).
      now rewrite Hnil.
    + rewrite (sgd_prints_last_batch_loss sub scale zero_loss add_loss
                 int_tenth params loss_fn max_epochs grad_loss_fn lr
                 front b_last Hl).
      destruct batches; [now destruct front|reflexivity].
Qed.

(** What [sgd_jax] returns, without what it prints, in every case. *)
Lemma sgd_jax_returned_cases (OptState : Type) (params : Params)
  (loss_fn : Params -> Batch Row Lbl -> Loss)
  (batches : Batching.batch_stream Row Lbl) (max_epochs : Z)
  (opt_init : Params -> OptState)
  (opt_update : Z -> Params -> OptState -> OptState)
  (get_params : OptState -> Params) :
  option_map fst
    (succeeded
       (sgd_jax int_tenth grad np_float params loss_fn batches max_epochs
          opt_init opt_update get_params))
  = if (max_epochs <=? 0)%Z then Some (params, [])
    else match rev batches with
         | [] => None
         | b_last :: _ =>
             Some (get_params
                     (snd (state_after grad params loss_fn batches opt_init
                             opt_update get_params (Z.to_nat max_epochs))),
                   map (reported_loss grad np_float params loss_fn batches
                          opt_init opt_update get_params b_last)
                     (seq 0 (Z.to_nat max_epochs)))
         end.
Proof.
  unfold sgd_jax.
  destruct (Z.leb_spec max_epochs 0) as [HE|HE].
  - unfold sgd_jax_locals. now rewrite (range_nonpos HE).
  - destruct (nil_or_last batches) as [Hnil|(front & b_last & Hl)].
    + rewrite jax_empty_stream_fails by (assumption || lia).
      now rewrite Hnil.
    + erewrite sgd_jax_locals_nonempty by exact Hl.
      replace (rev batches) with (b_last :: rev front)
        by (rewrite Hl, rev_app_distr; reflexivity).
      destruct (Z.to_nat max_epochs) eqn:Ek; [lia|]. reflexivity.
Qed.

(** X5. Over a stream that ends with the batch [b_last], [sgd] returns the
    parameters left by [max_epochs] passes of [params - lr * grad] over the
    batches, and the line it prints for an epoch that [print_every] divides
    carries the loss at the parameters that epoch ends with, on [b_last]
    alone, not a sum or a mean over the epoch. *)
Theorem sgd_reports_loss_on_last_batch (params : Params)
  (loss_fn : Params -> Batch Row Lbl -> Loss)
  (grad_loss_fn : Params -> Batch Row Lbl -> Params)
  (batches : Batching.batch_stream Row Lbl) (max_epochs : Z) (lr : Scalar)
  (front : list (Batching.batch_dict Row Lbl))
  (b_last : Batching.batch_dict Row Lbl) :
  batches = front ++ [b_last] ->
  let after := fun e => Nat.iter e (sgd_pass sub scale grad_loss_fn batches lr)
                          params in
  sgd sub scale zero_loss add_loss int_tenth params loss_fn grad_loss_fn
    batches max_epochs lr
  = inr (Tuple1 (after (Z.to_nat max_epochs)),
         progress_lines (Z.max 1 (int_tenth max_epochs))
           (fun e => loss_fn (after (S e)) (as_tuple b_last))
           (Z.to_nat max_epochs)).
Proof.
  intros Hb. now apply sgd_prints_last_batch_loss with (front := front).
Qed.

(** X6. The parameters that [sgd] returns do not depend on the loss
    function: with one gradient function, two loss functions give the same
    parameters, or no return with either. The loss is only reported. *)
Theorem sgd_params_ignore_loss_fn (params : Params)
  (loss_fn loss_fn' : Params -> Batch Row Lbl -> Loss)
  (grad_loss_fn : Params -> Batch Row Lbl -> Params)
  (batches : Batching.batch_stream Row Lbl) (max_epochs : Z) (lr : Scalar) :
  final_params_of_sgd
    (sgd sub scale zero_loss add_loss int_tenth params loss_fn grad_loss_fn
       batches max_epochs lr)
  = final_params_of_sgd
      (sgd sub scale zero_loss add_loss int_tenth params loss_fn'
         grad_loss_fn batches max_epochs lr).
Proof. now rewrite !final_params_of_sgd_cases. Qed.

(** X8. Epochs of [sgd] add up: over a stream with a batch, running [E1]
    epochs and then [E2] epochs from the parameters returned gives the
    parameters of one run of [E1 + E2] epochs. *)
Theorem sgd_epochs_add_up (params : Params)
  (loss_fn : Params -> Batch Row Lbl -> Loss)
  (grad_loss_fn : Params -> Batch Row Lbl -> Params)
  (batches : Batching.batch_stream Row Lbl) (E1 E2 : Z) (lr : Scalar) :
  batches <> [] -> (0 <= E1)%Z -> (0 <= E2)%Z ->
  exists p1,
    final_params_of_sgd
      (sgd sub scale zero_loss add_loss int_tenth params loss_fn grad_loss_fn
         batches E1 lr) = Some p1 /\
    final_params_of_sgd
      (sgd sub scale zero_loss add_loss int_tenth p1 loss_fn grad_loss_fn
         batches E2 lr)
    = final_params_of_sgd
        (sgd sub scale zero_loss add_loss int_tenth params loss_fn
           grad_loss_fn batches (E1 + E2) lr).
Proof.
  intros Hb H1 H2. rewrite !final_params_of_sgd_cases.
  destruct batches as [|b bs]; [easy|].
  set (pass := sgd_pass sub scale grad_loss_fn (b :: bs) lr).
  assert (Hif : forall E p,
             (if (E <=? 0)%Z then Some p
              else Some (Nat.iter (Z.to_nat E) pass p))
             = Some (Nat.iter (Z.to_nat E) pass p)).
  { intros E p. destruct (Z.leb_spec E 0); [|reflexivity].
    now replace (Z.to_nat E) with 0%nat by lia. }
  rewrite !Hif. eexists; split; [reflexivity|].
  rewrite final_params_of_sgd_cases. fold pass. rewrite Hif.
  replace (Z.to_nat (E1 + E2)) with (Z.to_nat E2 + Z.to_nat E1)%nat by lia.
  now rewrite Nat.iter_add.
Qed.

(** X9. Over a stream that ends with a batch, the lines that [sgd_jax]
    prints are exactly the pairs of an epoch and its entry of the loss
    history, for the epochs that [print_every = max(1, int(0.1*max_epochs))]
    divides, in order: what is printed is what is recorded. *)
Theorem sgd_jax_prints_recorded_losses (OptState : Type) (params : Params)
  (loss_fn : Params -> Batch Row Lbl -> Loss)
  (batches : Batching.batch_stream Row Lbl) (max_epochs : Z)
  (opt_init : Params -> OptState)
  (opt_update : Z -> Params -> OptState -> OptState)
  (get_params : OptState -> Params)
  (front : list (Batching.batch_dict Row Lbl))
  (b_last : Batching.batch_dict Row Lbl) :
  batches = front ++ [b_last] ->
  exists final loss_history printed,
    sgd_jax int_tenth grad np_float params loss_fn batches max_epochs
      opt_init opt_update get_params
    = inr ((final, loss_history), printed) /\
    printed
    = filter (fun l => (fst l mod Z.max 1 (int_tenth max_epochs) =? 0)%Z)
        (combine (range max_epochs) loss_history).
Proof.
  intros Hb. unfold sgd_jax.
  erewrite sgd_jax_locals_nonempty by exact Hb.
  cbn [bind ret jax_params jax_loss_history jax_printed].
  do 3 eexists; split; [reflexivity|].
  rewrite (range_to_nat max_epochs). apply progress_lines_filter.
Qed.

(** X10. An epoch count that is zero or negative is not rejected: both loops
    return the initial parameters at once, [sgd_jax] with an empty history,
    and print nothing, whatever the stream. *)
Theorem nonpositive_epochs_return_initial (OptState : Type) (params : Params)
  (loss_fn : Params -> Batch Row Lbl -> Loss)
  (grad_loss_fn : Params -> Batch Row Lbl -> Params)
  (batches : Batching.batch_stream Row Lbl) (max_epochs : Z) (lr : Scalar)
  (opt_init : Params -> OptState)
  (opt_update : Z -> Params -> OptState -> OptState)
  (get_params : OptState -> Params) :
  (max_epochs <= 0)%Z ->
  sgd_jax int_tenth grad np_float params loss_fn batches max_epochs opt_init
    opt_update get_params
  = inr ((params, []), [])
  /\
  sgd sub scale zero_loss add_loss int_tenth params loss_fn grad_loss_fn
    batches max_epochs lr
  = inr (Tuple1 params, []).
Proof.
  intros HE. unfold sgd_jax, sgd_jax_locals, sgd.
  rewrite (range_nonpos HE). split; reflexivity.
Qed.

(** X11. When [sgd] is given the gradient that [sgd_jax] computes, over a
    stream that ends with a batch, [sgd_jax] with [optimizers.sgd] at the
    constant rate [lr] and [sgd] at the rate [lr] print the same lines, up to
    the conversion of the loss to a Python float, and the loss history holds
    the loss of every epoch of [sgd] on the last batch. *)
Theorem sgd_jax_plain_prints_as_sgd (params : Params)
  (loss_fn : Params -> Batch Row Lbl -> Loss)
  (grad_loss_fn : Params -> Batch Row Lbl -> Params)
  (batches : Batching.batch_stream Row Lbl) (max_epochs : Z) (lr : Scalar)
  (front : list (Batching.batch_dict Row Lbl))
  (b_last : Batching.batch_dict Row Lbl) :
  (forall p b, grad loss_fn p b = grad_loss_fn p b) ->
  batches = front ++ [b_last] ->
  let after := fun e => Nat.iter e (sgd_pass sub scale grad_loss_fn batches lr)
                          params in
  exists final final' printed printed',
    sgd_jax int_tenth grad np_float params loss_fn batches max_epochs
      (@optimizers_sgd_init Params)
      (optimizers_sgd_update sub scale (optimizers_constant lr))
      (@optimizers_sgd_get_params Params)
    = inr ((final,
            map (fun e => np_float (loss_fn (after (S e)) (as_tuple b_last)))
              (seq 0 (Z.to_nat max_epochs))), printed) /\
    sgd sub scale zero_loss add_loss int_tenth params loss_fn grad_loss_fn
      batches max_epochs lr
    = inr (Tuple1 final', printed') /\
    printed = map (fun l => (fst l, np_float (snd l))) printed'.
Proof.
  intros Hg Hb after.
  rewrite (sgd_prints_last_batch_loss sub scale zero_loss add_loss
             int_tenth params loss_fn max_epochs grad_loss_fn lr
             front b_last Hb).
  unfold sgd_jax. erewrite sgd_jax_locals_nonempty by exact Hb.
  cbn [bind ret jax_params jax_loss_history jax_printed].
  assert (Hrep : forall e,
             reported_loss grad np_float params loss_fn batches
               (@optimizers_sgd_init Params)
               (optimizers_sgd_update sub scale (optimizers_constant lr))
               (@optimizers_sgd_get_params Params) b_last e
             = np_float (loss_fn (after (S e)) (as_tuple b_last))).
  { intros e. unfold reported_loss.
    erewrite state_after_optimizers_sgd by exact Hg. reflexivity. }
  rewrite (map_ext _ _ Hrep), (progress_lines_ext _ _ _ _ Hrep).
  do 4 eexists. split; [reflexivity|]. split; [reflexivity|].
  now rewrite progress_lines_map.
Qed.

End LoopProperties.

Section CadenceProperties.

Variables Row Lbl Params Scalar Loss Float : Type.
Variable sub : Params -> Params -> Params.
Variable scale : Scalar -> Params -> Params.
Variable zero_loss : Loss.
Variable add_loss : Loss -> Loss -> Loss.
Variable grad :
  (Params -> Training.Batch Row Lbl -> Loss) ->
  Params -> Training.Batch Row Lbl -> Params.
Variable np_float : Loss -> Float.

Import Training.

(** X7. How often the loops print has no effect on what they return:
    whatever [int(0.1 * max_epochs)] evaluates to, [sgd_jax] returns the same
    parameters and loss history and [sgd] the same parameters, or neither
    returns. *)
Theorem printing_cadence_is_observational (int_tenth int_tenth' : Z -> Z)
  (OptState : Type) (params : Params)
  (loss_fn : Params -> Batch Row Lbl -> Loss)
  (grad_loss_fn : Params -> Batch Row Lbl -> Params)
  (batches : Batching.batch_stream Row Lbl) (max_epochs : Z) (lr : Scalar)
  (opt_init : Params -> OptState)
  (opt_update : Z -> Params -> OptState -> OptState)
  (get_params : OptState -> Params) :
  option_map fst
    (succeeded
       (sgd_jax int_tenth grad np_float params loss_fn batches max_epochs
          opt_init opt_update get_params))
  = option_map fst
      (succeeded
         (sgd_jax int_tenth' grad np_float params loss_fn batches max_epochs
            opt_init opt_update get_params))
  /\
  final_params_of_sgd
    (sgd sub scale zero_loss add_loss int_tenth params loss_fn grad_loss_fn
       batches max_epochs lr)
  = final_params_of_sgd
      (sgd sub scale zero_loss add_loss int_tenth' params loss_fn
         grad_loss_fn batches max_epochs lr).
Proof.
  split.
  - now rewrite !sgd_jax_returned_cases.
  - now rewrite !final_params_of_sgd_cases.
Qed.

End CadenceProperties.

(** ** The training cells *)

Section CellProperties.

Variables Row Lbl Params Scalar Loss Float : Type.
Variable sub : Params -> Params -> Params.
Variable scale : Scalar -> Params -> Params.
Variable zero_loss : Loss.
Variable add_loss : Loss -> Loss -> Loss.
Variable int_tenth : Z -> Z.
Variable grad :
  (Params -> Training.Batch Row Lbl -> Loss) ->
  Params -> Training.Batch Row Lbl -> Params.
Variable np_float : Loss -> Float.

Import Training TrainingFacts.

Lemma make_batch_stream_empty (batch_size : Z) :
  (0 < batch_size)%Z ->
  Batching.make_batch_stream (@nil Row) (@nil Lbl) batch_size
  = inr ([], Batching.SplitMessage 0 0 batch_size).
Proof.
  intros Hbs. unfold Batching.make_batch_stream, Batching.batch.
  cbn [Batching.from_tensor_slices length Nat.eqb combine map bind ret].
  destruct (Z.leb_spec batch_size 0) as [Hle|_]; [lia|].
  cbn [bind ret Batching.batch_iter length]. rewrite firstn_nil.
  reflexivity.
Qed.

(** X12. On a dataset that is not empty, with one label per row, the training
    cells return for every positive batch size, also one above the number of
    examples, and for every epoch count: when [sgd] is given the gradient
    that [sgd_jax] computes, both loops return the same parameters, those of
    [max_epochs] passes over the stream, and the loss history has
    [max_epochs] entries (none when it is negative). *)
Theorem sgd_cells_return (X_train : list Row) (y_train : list Lbl)
  (batch_size : Z) (w_init : Params)
  (loss_fn : Params -> Batch Row Lbl -> Loss)
  (grad_loss_fn : Params -> Batch Row Lbl -> Params)
  (max_epochs : Z) (lr : Scalar) :
  length X_train = length y_train -> X_train <> [] ->
  (0 < batch_size)%Z ->
  (forall p b, grad loss_fn p b = grad_loss_fn p b) ->
  exists stream msg final loss_history,
    Batching.make_batch_stream X_train y_train batch_size
    = inr (stream, msg) /\
    Notebook.sgd_cells sub scale zero_loss add_loss int_tenth grad np_float
      X_train y_train batch_size w_init loss_fn grad_loss_fn max_epochs lr
    = inr (Tuple1 final, (final, loss_history)) /\
    final
    = Nat.iter (Z.to_nat max_epochs)
        (sgd_pass sub scale grad_loss_fn stream lr) w_init /\
    length loss_history = Z.to_nat max_epochs.
Proof.
  intros Hlen HX Hbs Hg.
  destruct (BatchingFacts.make_batch_stream_ok X_train y_train Hlen Hbs)
    as (stream & Hs & Hcat & _).
  assert (Hne : stream <> []) by (intros ->; now apply HX).
  exists stream; eexists. unfold Notebook.sgd_cells. rewrite Hs.
  cbn [bind fst].
  destruct (nil_or_last stream) as [|(front & b_last & Hl)]; [easy|].
  rewrite (sgd_prints_last_batch_loss sub scale zero_loss add_loss
             int_tenth w_init loss_fn max_epochs grad_loss_fn lr
             front b_last Hl).
  cbn [bind fst]. unfold sgd_jax.
  erewrite sgd_jax_locals_nonempty by exact Hl.
  cbn [bind ret fst jax_params jax_loss_history jax_printed].
  erewrite state_after_optimizers_sgd by exact Hg.
  unfold optimizers_sgd_get_params.
  destruct (Z.to_nat max_epochs) as [|k] eqn:Ek.
  - do 2 eexists. repeat split.
  - do 2 eexists. do 3 (split; [reflexivity|]).
    now rewrite length_map, length_seq.
Qed.

(** X13. On an empty dataset the stream has no batch, and with
    [max_epochs >= 1] the training cells stop in the first epoch of [sgd],
    which reads [batch_loss] before anything bound it. *)
Theorem sgd_cells_raise_on_empty_dataset (batch_size : Z) (w_init : Params)
  (loss_fn : Params -> Batch Row Lbl -> Loss)
  (grad_loss_fn : Params -> Batch Row Lbl -> Params)
  (max_epochs : Z) (lr : Scalar) :
  (0 < batch_size)%Z -> (1 <= max_epochs)%Z ->
  Batching.make_batch_stream (@nil Row) (@nil Lbl) batch_size
  = inr ([], Batching.SplitMessage 0 0 batch_size) /\
  Notebook.sgd_cells sub scale zero_loss add_loss int_tenth grad np_float
    [] [] batch_size w_init loss_fn grad_loss_fn max_epochs lr
  = inl (UnboundLocalError "batch_loss").
Proof.
  intros Hbs HE. split; [now apply make_batch_stream_empty|].
  unfold Notebook.sgd_cells. rewrite make_batch_stream_empty by exact Hbs.
  cbn [bind fst].
  now rewrite sgd_empty_stream_fails.
Qed.

End CellProperties.

(** ** The objective, in exact arithmetic *)

Module LossFacts.

Import Objective ObjectiveFacts GradientFacts.
Local Open Scope R_scope.

Lemma softplus_pos (a : R) : 0 < ln (1 + exp a).
Proof.
  rewrite <- ln_1. apply ln_increasing; [lra|].
  pose proof (exp_pos a); lra.
Qed.

(** The log probability of an example whose target lies in [[0, 1]] is not
    positive. *)
Lemma logprob_nonpos (a t : R) : 0 <= t <= 1 -> logprob a t <= 0.
Proof.
  intros Ht. unfold logprob. rewrite !logsumexp_pair.
  pose proof (softplus_pos a). pose proof (softplus_pos (- a)). nra.
Qed.

Lemma sum_logprobs_nonpos (w : vector) (X : matrix) (y : vector) :
  Forall (fun t => 0 <= t <= 1) y ->
  sum_list (map (fun p => logprob (vdot (fst p) w) (snd p)) (combine X y))
  <= 0.
Proof.
  intros Hy. revert X; induction Hy as [|t y Ht Hy IH]; intros X.
  - destruct X; simpl; lra.
  - destruct X as [|row X]; [simpl; lra|].
    cbn [combine map fst snd].
    change (sum_list (?a :: ?l)) with (a + sum_list l).
    pose proof (logprob_nonpos (vdot row w) Ht). specialize (IH X). lra.
Qed.

Lemma ncols_well_shaped (D : nat) (X : matrix) (y : vector) :
  X <> [] -> well_shaped D (X, y) -> ncols X = D.
Proof.
  intros HX [_ Hrows]. destruct X as [|row X]; [easy|]. now inversion Hrows.
Qed.

End LossFacts.

(** X14. On a batch that is not empty, with rows of [D] features and one
    label per row, and weights of [D] entries, [NLL_grad] returns a vector of
    [D] entries, one per feature. *)
Theorem NLL_grad_has_feature_dimension (D : nat) (w : Objective.vector)
  (X : Objective.matrix) (y : Objective.vector) :
  X <> [] -> Objective.well_shaped D (X, y) -> length w = D ->
  length (Objective.NLL_grad w (X, y)) = D.
Proof.
  intros HX Hshape _.
  pose proof (LossFacts.ncols_well_shaped HX Hshape) as Hcols.
  destruct Hshape as [Hlen _].
  unfold Objective.NLL_grad, Objective.sum_axis0.
  rewrite !length_map, length_seq.
  rewrite GradientFacts.ncols_matmul; [exact Hcols|].
  apply GradientFacts.diag_nonempty. intros E.
  apply (f_equal (@length R)) in E.
  rewrite GradientFacts.length_errors in E by exact Hlen.
  destruct X; [easy|discriminate].
Qed.

Lemma NLL_grad_has_feature_dimension_witness :
  length (Objective.NLL_grad [0; 0]%R ([[1; 2]; [3; 4]]%R, [1; 0]%R)) = 2%nat.
Proof.
  apply (@NLL_grad_has_feature_dimension 2 [0; 0]%R [[1; 2]; [3; 4]]%R
           [1; 0]%R).
  - discriminate.
  - split; [reflexivity|]. repeat constructor.
  - reflexivity.
Defined.

(** X15. In exact arithmetic, on a batch that is not empty whose labels lie
    in [[0, 1]], the loss [NLL] is never negative, whatever the weights. *)
Theorem NLL_nonnegative (w : Objective.vector) (X : Objective.matrix)
  (y : Objective.vector) :
  X <> [] -> Forall (fun t => 0 <= t <= 1)%R y ->
  (0 <= Objective.NLL w (X, y))%R.
Proof.
  intros HX Hy. rewrite GradientFacts.NLL_sum.
  pose proof (LossFacts.sum_logprobs_nonpos w X Hy) as Hsum.
  assert (HN : (0 < INR (length X))%R).
  { apply lt_0_INR. destruct X; [easy|simpl; lia]. }
  apply Rmult_le_pos; [lra|].
  left. now apply Rinv_0_lt_compat.
Qed.

Lemma NLL_nonnegative_witness :
  (0 <= Objective.NLL [0; 0] ([[1; 2]; [3; 4]], [1; 0]))%R.
Proof.
  apply (@NLL_nonnegative [0; 0]%R [[1; 2]; [3; 4]]%R [1; 0]%R).
  - discriminate.
  - repeat constructor; lra.
Defined.

(** X16. In exact arithmetic, on training data that is not empty, with rows
    of [D] features and one label per row, the Jacobian handed to the
    minimizer is the gradient of the objective handed to it: coordinate [j]
    of [training_grad(w)] is the derivative of [training_loss] in
    coordinate [j] of [w]. *)
Theorem training_grad_is_gradient_of_training_loss (D : nat)
  (X_train : Objective.matrix) (y_train : Objective.vector)
  (w : Objective.vector) (j : nat) :
  X_train <> [] -> Objective.well_shaped D (X_train, y_train) ->
  length w = D -> (j < D)%nat ->
  derivable_pt_lim
    (fun t => Objective.training_loss X_train y_train
                (Objective.set_coord w j t))
    (nth j w 0%R)
    (nth j (Objective.training_grad X_train y_train w) 0%R).
Proof.
  intros HX Hshape Hw Hj.
  change (Objective.partial_derivative Objective.NLL w (X_train, y_train) j
            (nth j (Objective.NLL_grad w (X_train, y_train)) 0%R)).
  apply GradientFacts.NLL_grad_is_partial_derivative with (D := D);
    assumption.
Qed.

Lemma training_grad_is_gradient_of_training_loss_witness :
  derivable_pt_lim
    (fun t => Objective.training_loss [[1; 2]; [3; 4]]%R [1; 0]%R
                (Objective.set_coord [0; 0]%R 1 t))
    (nth 1 [0; 0]%R 0%R)
    (nth 1 (Objective.training_grad [[1; 2]; [3; 4]]%R [1; 0]%R [0; 0]%R)
       0%R).
Proof.
  apply (@training_grad_is_gradient_of_training_loss 2 [[1; 2]; [3; 4]]%R
           [1; 0]%R [0; 0]%R 1).
  - discriminate.
  - split; [reflexivity|]. repeat constructor.
  - reflexivity.
  - lia.
Defined.

(** ** Runs of the properties on the small instance *)

Lemma sgd_reports_loss_on_last_batch_witness :
  Training.sgd Z.sub Z.mul 0%Z Z.add Demo.int_tenth 5%Z Demo.loss_fn
    (Demo.grad Demo.loss_fn) Demo.batches 2 3%Z
  = inr (Training.Tuple1
           (Nat.iter (Z.to_nat 2)
              (Training.sgd_pass Z.sub Z.mul (Demo.grad Demo.loss_fn)
                 Demo.batches 3%Z) 5%Z),
         Training.progress_lines (Z.max 1 (Demo.int_tenth 2))
           (fun e =>
              Demo.loss_fn
                (Nat.iter (S e)
                   (Training.sgd_pass Z.sub Z.mul (Demo.grad Demo.loss_fn)
                      Demo.batches 3%Z) 5%Z)
                (Training.as_tuple (Batching.BatchDict [3]%Z [1]%Z)))
           (Z.to_nat 2)).
Proof.
  apply (@sgd_reports_loss_on_last_batch Z Z Z Z Z Z.sub Z.mul 0%Z Z.add
           Demo.int_tenth 5%Z Demo.loss_fn (Demo.grad Demo.loss_fn)
           Demo.batches 2 3%Z [Batching.BatchDict [1; 2]%Z [0; 1]%Z]
           (Batching.BatchDict [3]%Z [1]%Z)).
  reflexivity.
Defined.

Lemma sgd_epochs_add_up_witness :
  exists p1,
    Training.final_params_of_sgd
      (Training.sgd Z.sub Z.mul 0%Z Z.add Demo.int_tenth 5%Z Demo.loss_fn
         (Demo.grad Demo.loss_fn) Demo.batches 1 3%Z) = Some p1 /\
    Training.final_params_of_sgd
      (Training.sgd Z.sub Z.mul 0%Z Z.add Demo.int_tenth p1 Demo.loss_fn
         (Demo.grad Demo.loss_fn) Demo.batches 2 3%Z)
    = Training.final_params_of_sgd
        (Training.sgd Z.sub Z.mul 0%Z Z.add Demo.int_tenth 5%Z Demo.loss_fn
           (Demo.grad Demo.loss_fn) Demo.batches (1 + 2) 3%Z).
Proof.
  apply (@sgd_epochs_add_up Z Z Z Z Z Z.sub Z.mul 0%Z Z.add Demo.int_tenth
           5%Z Demo.loss_fn (Demo.grad Demo.loss_fn) Demo.batches 1 2 3%Z);
    [discriminate | lia | lia].
Defined.

Lemma sgd_jax_prints_recorded_losses_witness :
  exists final loss_history printed,
    Training.sgd_jax Demo.int_tenth Demo.grad Demo.np_float 5%Z Demo.loss_fn
      Demo.batches 2 Demo.opt_init Demo.opt_update Demo.get_params
    = inr ((final, loss_history), printed) /\
    printed
    = filter (fun l => (fst l mod Z.max 1 (Demo.int_tenth 2) =? 0)%Z)
        (combine (range 2) loss_history).
Proof.
  apply (@sgd_jax_prints_recorded_losses Z Z Z Z Z Demo.int_tenth Demo.grad
           Demo.np_float (Z * Z)%type 5%Z Demo.loss_fn Demo.batches 2
           Demo.opt_init Demo.opt_update Demo.get_params
           [Batching.BatchDict [1; 2]%Z [0; 1]%Z]
           (Batching.BatchDict [3]%Z [1]%Z)).
  reflexivity.
Defined.

Lemma nonpositive_epochs_return_initial_witness :
  Training.sgd_jax Demo.int_tenth Demo.grad Demo.np_float 5%Z Demo.loss_fn
    Demo.batches (-3) Demo.opt_init Demo.opt_update Demo.get_params
  = inr ((5%Z, []), [])
  /\
  Training.sgd Z.sub Z.mul 0%Z Z.add Demo.int_tenth 5%Z Demo.loss_fn
    (Demo.grad Demo.loss_fn) Demo.batches (-3) 3%Z
  = inr (Training.Tuple1 5%Z, []).
Proof.
  apply (@nonpositive_epochs_return_initial Z Z Z Z Z Z Z.sub Z.mul 0%Z
           Z.add Demo.int_tenth Demo.grad Demo.np_float (Z * Z)%type 5%Z
           Demo.loss_fn (Demo.grad Demo.loss_fn) Demo.batches (-3) 3%Z
           Demo.opt_init Demo.opt_update Demo.get_params).
  lia.
Defined.

Lemma sgd_jax_plain_prints_as_sgd_witness :
  exists final final' printed printed',
    Training.sgd_jax Demo.int_tenth Demo.grad Demo.np_float 5%Z Demo.loss_fn
      Demo.batches 2 (@Training.optimizers_sgd_init Z)
      (Training.optimizers_sgd_update Z.sub Z.mul
         (Training.optimizers_constant 3%Z))
      (@Training.optimizers_sgd_get_params Z)
    = inr ((final,
            map (fun e =>
                   Demo.np_float
                     (Demo.loss_fn
                        (Nat.iter (S e)
                           (Training.sgd_pass Z.sub Z.mul
                              (Demo.grad Demo.loss_fn) Demo.batches 3%Z) 5%Z)
                        (Training.as_tuple
                           (Batching.BatchDict [3]%Z [1]%Z))))
              (seq 0 (Z.to_nat 2))), printed) /\
    Training.sgd Z.sub Z.mul 0%Z Z.add Demo.int_tenth 5%Z Demo.loss_fn
      (Demo.grad Demo.loss_fn) Demo.batches 2 3%Z
    = inr (Training.Tuple1 final', printed') /\
    printed = map (fun l => (fst l, Demo.np_float (snd l))) printed'.
Proof.
  apply (@sgd_jax_plain_prints_as_sgd Z Z Z Z Z Z Z.sub Z.mul 0%Z Z.add
           Demo.int_tenth Demo.grad Demo.np_float 5%Z Demo.loss_fn
           (Demo.grad Demo.loss_fn) Demo.batches 2 3%Z
           [Batching.BatchDict [1; 2]%Z [0; 1]%Z]
           (Batching.BatchDict [3]%Z [1]%Z)).
  - intros p b; reflexivity.
  - reflexivity.
Defined.

Lemma sgd_cells_return_witness :
  exists stream msg final loss_history,
    Batching.make_batch_stream [1; 2; 3]%Z [0; 1; 1]%Z 5
    = inr (stream, msg) /\
    Notebook.sgd_cells Z.sub Z.mul 0%Z Z.add Demo.int_tenth Demo.grad
      Demo.np_float [1; 2; 3]%Z [0; 1; 1]%Z 5 5%Z Demo.loss_fn
      (Demo.grad Demo.loss_fn) 2 3%Z
    = inr (Training.Tuple1 final, (final, loss_history)) /\
    final
    = Nat.iter (Z.to_nat 2)
        (Training.sgd_pass Z.sub Z.mul (Demo.grad Demo.loss_fn) stream 3%Z)
        5%Z /\
    length loss_history = Z.to_nat 2.
Proof.
  apply (@sgd_cells_return Z Z Z Z Z Z Z.sub Z.mul 0%Z Z.add Demo.int_tenth
           Demo.grad Demo.np_float [1; 2; 3]%Z [0; 1; 1]%Z 5 5%Z
           Demo.loss_fn (Demo.grad Demo.loss_fn) 2 3%Z).
  - reflexivity.
  - discriminate.
  - lia.
  - intros p b; reflexivity.
Defined.

Lemma sgd_cells_raise_on_empty_dataset_witness :
  Batching.make_batch_stream (@nil Z) (@nil Z) 5
  = inr ([], Batching.SplitMessage 0 0 5) /\
  Notebook.sgd_cells Z.sub Z.mul 0%Z Z.add Demo.int_tenth Demo.grad
    Demo.np_float [] [] 5 5%Z Demo.loss_fn (Demo.grad Demo.loss_fn) 1 3%Z
  = inl (UnboundLocalError "batch_loss").
Proof.
  apply (@sgd_cells_raise_on_empty_dataset Z Z Z Z Z Z Z.sub Z.mul 0%Z Z.add
           Demo.int_tenth Demo.grad Demo.np_float 5 5%Z Demo.loss_fn
           (Demo.grad Demo.loss_fn) 1 3%Z); lia.
Defined.
